(** * Voiceprint verification service: a shallow embedding

    This development models [services/verification.py]
    (class [VoiceVerificationService]) and proves properties of its
    similarity engine, its voiceprint store and its signal analyzer.

    Numbers.  The code computes with binary64 floats.  Two readings of a
    float are used, each where it is sound:

    - as a real number ([R]), with exact arithmetic, for properties that
      no rounding, overflow or underflow can change: control flow, the
      store, counts, comparisons of a result with its bounds;
    - as a binary64 number (module [Binary64], on the primitive floats),
      for the similarity engine, where a product can overflow to
      infinity, underflow to zero, and the quotient can be nan.

    The arrays that [np.fft.fft] and [np.fft.fftfreq] compute carry
    rounding errors as well; module [Parametric] takes these two library
    functions as parameters, so that its theorems hold for the arrays the
    library really returns.

    Errors.  A Python exception is a [Raise] result; the exceptions that
    the modelled code can raise are listed in [exn].

    State.  The only mutable state is the dictionary
    [self.user_voiceprints]; each method takes the service object and
    returns its result together with the service object after the call. *)

From Stdlib Require Import Reals Lra Lia List ZArith.
From Stdlib Require Floats.
From stdpp Require Import gmap.
Import ListNotations.

Local Open Scope R_scope.

(** ** Results of fallible code *)

Inductive exn : Set :=
| ValueError
| ZeroDivisionError.

Inductive result (A : Type) : Type :=
| Ok (a : A)
| Raise (e : exn).

Arguments Ok {A} a.
Arguments Raise {A} e.

(** ** The NumPy operations the service uses, on one-dimensional arrays *)

Module np.

(** [np.sum] of a float array. *)
Fixpoint sum (a : list R) : R :=
  match a with
  | [] => 0
  | x :: a' => x + sum a'
  end.

(** Element-wise product [a * b] of two arrays of the same shape. *)
Fixpoint mul (a b : list R) : list R :=
  match a, b with
  | x :: a', y :: b' => x * y :: mul a' b'
  | _, _ => []
  end.

(** The inner product of two arrays whose shapes agree. *)
Definition inner (a b : list R) : R := sum (mul a b).

(** [np.dot] of two one-dimensional arrays: shapes that differ raise
    [ValueError]. *)
Definition dot (a b : list R) : result R :=
  if Nat.eqb (length a) (length b) then Ok (inner a b)
  else Raise ValueError.

(** [np.linalg.norm] of a one-dimensional real array: the square root
    of the array's inner product with itself. *)
Definition linalg_norm (a : list R) : R := sqrt (inner a a).

(** [np.sign]: the three-valued sign of every entry. *)
Definition sign1 (x : R) : R :=
  if Rlt_dec x 0 then -1 else if Rgt_dec x 0 then 1 else 0.

Definition sign (a : list R) : list R := map sign1 a.

(** [np.diff]: [out[i] = a[i+1] - a[i]]; one entry fewer than [a]. *)
Fixpoint diff (a : list R) : list R :=
  match a with
  | x :: (y :: _) as a' => y - x :: diff a'
  | _ => []
  end.

(** [a != 0], [a <= c] and [a > c]: element-wise comparisons with a
    scalar, giving a boolean array. *)
Definition ne0 (a : list R) : list bool :=
  map (fun x => if Req_dec_T x 0 then false else true) a.

Definition le (a : list R) (c : R) : list bool :=
  map (fun x => if Rle_dec x c then true else false) a.

Definition gt (a : list R) (c : R) : list bool :=
  map (fun x => if Rgt_dec x c then true else false) a.

(** [m1 & m2] on boolean arrays of one shape. *)
Fixpoint band (m1 m2 : list bool) : list bool :=
  match m1, m2 with
  | p :: m1', q :: m2' => (p && q) :: band m1' m2'
  | _, _ => []
  end.

(** [np.sum] of a boolean array: the number of [True] entries. *)
Fixpoint count (m : list bool) : nat :=
  match m with
  | [] => 0%nat
  | true :: m' => S (count m')
  | false :: m' => count m'
  end.

(** [a[m]]: the entries of [a] at the positions where the boolean
    array [m] (of the same shape) is [True]. *)
Fixpoint mask (a : list R) (m : list bool) : list R :=
  match a, m with
  | x :: a', true :: m' => x :: mask a' m'
  | _ :: a', false :: m' => mask a' m'
  | _, _ => []
  end.

(** [np.arange(lo, hi)] on integers. *)
Definition arange (lo hi : Z) : list Z :=
  map (fun i => (lo + Z.of_nat i)%Z) (seq 0 (Z.to_nat (hi - lo))).

(** Complex numbers, as pairs of a real and an imaginary part, and
    [np.abs] of a complex number. *)
Definition complex : Type := R * R.

Definition cabs (z : complex) : R :=
  sqrt (fst z * fst z + snd z * snd z).

(** The phase [2 * pi * k * m / n] of the DFT kernel. *)
Definition phase (n k m : nat) : R := 2 * PI * INR k * INR m / INR n.

(** Bin [k] of the discrete Fourier transform of [a]:
    the sum over [m] of [a[m] * exp(-2 pi i k m / n)]. *)
Definition dft_bin (a : list R) (k : nat) : complex :=
  let n := length a in
  (sum (imap (fun m x => x * cos (phase n k m)) a),
   - sum (imap (fun m x => x * sin (phase n k m)) a)).

(** [np.fft.fft] of a one-dimensional real array; an empty array raises
    [ValueError]. *)
Definition fft (a : list R) : result (list complex) :=
  match a with
  | [] => Raise ValueError
  | _ => Ok (map (dft_bin a) (seq 0 (length a)))
  end.

(** [np.fft.fftfreq(n, d)]: the integers [0 .. (n-1)//2] followed by
    [-(n//2) .. -1], each scaled by [1 / (n * d)]. *)
Definition fftfreq (n : nat) (d : R) : list R :=
  let val := 1 / (INR n * d) in
  let N := ((Z.of_nat n - 1) / 2 + 1)%Z in
  let p1 := arange 0 N in
  let p2 := arange (- (Z.of_nat n / 2)) 0 in
  map (fun i => IZR i * val) (p1 ++ p2).

(** [np.abs] of a real array. *)
Definition abs (a : list R) : list R := map Rabs a.

(** [np.mean]: the sum divided by the number of entries.  For an empty
    array NumPy returns nan (with a warning): [None]. *)
Definition mean (a : list R) : option R :=
  match a with
  | [] => None
  | _ => Some (sum a / INR (length a))
  end.

(** [np.std] (population standard deviation, [ddof = 0]): the square root
    of the mean of the squared deviations from the mean; nan, hence
    [None], for an empty array. *)
Definition std (a : list R) : option R :=
  match mean a with
  | None => None
  | Some arrmean =>
      match mean (map (fun v => (v - arrmean) * (v - arrmean)) a) with
      | None => None
      | Some var => Some (sqrt var)
      end
  end.

End np.

(** Python's built-in [min(a, b)] and [max(a, b)]: the first argument is
    kept unless the second is strictly smaller (respectively larger). *)
Definition py_min (a b : R) : R := if Rlt_dec b a then b else a.
Definition py_max (a b : R) : R := if Rgt_dec b a then b else a.

(** [x == 0] on floats, as a boolean. *)
Definition is_zero (x : R) : bool := if Req_dec_T x 0 then true else false.

(** [x >= y] on floats, as a boolean. *)
Definition ge_bool (x y : R) : bool := if Rge_dec x y then true else false.

(** ** Data model *)

(** The dictionary stored per user by [register_user_voiceprint]. *)
Record VoiceprintRecord : Type := mkRecord {
  features : list R;
  created_at : Z
}.

(** The service object: its only attribute is [user_voiceprints]. *)
Record VoiceVerificationService : Type := mkService {
  user_voiceprints : gmap Z VoiceprintRecord
}.

(** [VoiceVerificationService()] *)
Definition init : VoiceVerificationService := mkService ∅.

(** A feature vector of the data model has seven entries. *)
Definition FeatureVector (f : list R) : Prop := length f = 7%nat.

(** ** Similarity engine *)

Definition _calculate_similarity (features1 features2 : list R) : result R :=
  let vec1 := features1 in
  let vec2 := features2 in
  match np.dot vec1 vec2 with
  | Raise e => Raise e
  | Ok dot_product =>
      let norm1 := np.linalg_norm vec1 in
      let norm2 := np.linalg_norm vec2 in
      if is_zero norm1 || is_zero norm2 then Ok 0
      else
        let similarity := dot_product / (norm1 * norm2) in
        Ok (py_max 0 (py_min 1 similarity))
  end.

(** ** Store operations *)

(** [register_user_voiceprint]; [now] is the value of
    [np.datetime64('now')] read during the call.  The assignment into the
    dictionary cannot fail for an integer key, so the [except] branch is
    never taken. *)
Definition register_user_voiceprint (now : Z) (user_id : Z) (feats : list R)
    (self : VoiceVerificationService) : bool * VoiceVerificationService :=
  (true,
   mkService (<[user_id := mkRecord feats now]> (user_voiceprints self))).

Definition verify_user_voiceprint (user_id : Z) (feats : list R)
    (threshold : R) (self : VoiceVerificationService)
    : result (bool * R) * VoiceVerificationService :=
  match user_voiceprints self !! user_id with
  | None => (Ok (false, 0), self)
  | Some rec =>
      let registered_features := features rec in
      match _calculate_similarity registered_features feats with
      | Raise e => (Raise e, self)
      | Ok similarity =>
          let is_verified := ge_bool similarity threshold in
          (Ok (is_verified, similarity), self)
      end
  end.

Definition remove_user_voiceprint (user_id : Z)
    (self : VoiceVerificationService) : bool * VoiceVerificationService :=
  match user_voiceprints self !! user_id with
  | Some _ => (true, mkService (delete user_id (user_voiceprints self)))
  | None => (false, self)
  end.

(** ** Signal analyzer *)

(** [_calculate_zero_crossing_rate].  For an empty array NumPy evaluates
    the final division [0 / 0] to nan, which is no real number: the model
    returns [None] there. *)
Definition _calculate_zero_crossing_rate (audio_data : list R) : option R :=
  let zero_crossings := np.count (np.ne0 (np.diff (np.sign audio_data))) in
  match length audio_data with
  | O => None
  | S _ => Some (INR zero_crossings / INR (length audio_data))
  end.

Definition _calculate_spectral_centroid (audio_data : list R)
    (sample_rate : Z) : result R :=
  match np.fft audio_data with
  | Raise e => Raise e
  | Ok fft =>
      let magnitude := map np.cabs fft in
      if (sample_rate =? 0)%Z then Raise ZeroDivisionError
      else
        let freqs := np.fftfreq (length audio_data) (1 / IZR sample_rate) in
        let positive_freqs := firstn (length freqs / 2) freqs in
        let positive_magnitude := firstn (length magnitude / 2) magnitude in
        if is_zero (np.sum positive_magnitude) then Ok 0
        else
          let spectral_centroid :=
            np.sum (np.mul positive_freqs positive_magnitude)
            / np.sum positive_magnitude in
          Ok spectral_centroid
  end.

Definition _calculate_frequency_bands_energy (audio_data : list R)
    (sample_rate : Z) : result (R * R * R) :=
  match np.fft audio_data with
  | Raise e => Raise e
  | Ok fft =>
      let magnitude := map np.cabs fft in
      if (sample_rate =? 0)%Z then Raise ZeroDivisionError
      else
        let freqs := np.fftfreq (length audio_data) (1 / IZR sample_rate) in
        let positive_freqs := firstn (length freqs / 2) freqs in
        let positive_magnitude := firstn (length magnitude / 2) magnitude in
        let low_freq := 300 in
        let mid_freq := 1000 in
        let high_freq := 3000 in
        let low_energy :=
          np.sum (np.mask positive_magnitude
                    (np.le positive_freqs low_freq)) in
        let mid_energy :=
          np.sum (np.mask positive_magnitude
                    (np.band (np.gt positive_freqs low_freq)
                             (np.le positive_freqs mid_freq))) in
        let high_energy :=
          np.sum (np.mask positive_magnitude
                    (np.band (np.gt positive_freqs mid_freq)
                             (np.le positive_freqs high_freq))) in
        Ok (low_energy, mid_energy, high_energy)
  end.

(** [extract_voice_features].  A feature is a float: [Some] of a real
    number, or [None] for nan.  The three statistics are evaluated first
    (on an empty array they are nan), then the two spectral functions,
    whose exceptions propagate. *)
Definition extract_voice_features (audio_data : list R) (sample_rate : Z)
    : result (list (option R)) :=
  let mean_amplitude := np.mean (np.abs audio_data) in
  let std_amplitude := np.std audio_data in
  let zero_crossing_rate := _calculate_zero_crossing_rate audio_data in
  match _calculate_spectral_centroid audio_data sample_rate with
  | Raise e => Raise e
  | Ok spectral_centroid =>
      match _calculate_frequency_bands_energy audio_data sample_rate with
      | Raise e => Raise e
      | Ok (energy_low, energy_mid, energy_high) =>
          let feats :=
            [mean_amplitude;
             std_amplitude;
             zero_crossing_rate;
             Some spectral_centroid;
             Some energy_low;
             Some energy_mid;
             Some energy_high] in
          Ok feats
      end
  end.

(** ** The spectral functions over the arrays the library computes

    [np.fft.fft] and [np.fft.fftfreq] work in binary64: the computed
    spectrum carries rounding noise, and a computed bin frequency can
    differ from [k * sample_rate / N] in its last bit.  In this module
    the two library functions are parameters: [fft a] is the array that
    [np.fft.fft] returns for [a], [fftfreq n d] the array that
    [np.fft.fftfreq] returns for [n] and the float that the code computes
    for the sample period [d = 1 / sample_rate].  The two functions above
    are the instances at the exact transform [np.fft] and the exact
    frequencies [np.fftfreq]. *)
Module Parametric.
Section Library.

Variable fft : list R -> result (list np.complex).
Variable fftfreq : nat -> R -> list R.

Definition _calculate_spectral_centroid (audio_data : list R)
    (sample_rate : Z) : result R :=
  match fft audio_data with
  | Raise e => Raise e
  | Ok spectrum =>
      let magnitude := map np.cabs spectrum in
      if (sample_rate =? 0)%Z then Raise ZeroDivisionError
      else
        let freqs := fftfreq (length audio_data) (1 / IZR sample_rate) in
        let positive_freqs := firstn (length freqs / 2) freqs in
        let positive_magnitude := firstn (length magnitude / 2) magnitude in
        if is_zero (np.sum positive_magnitude) then Ok 0
        else
          let spectral_centroid :=
            np.sum (np.mul positive_freqs positive_magnitude)
            / np.sum positive_magnitude in
          Ok spectral_centroid
  end.

Definition _calculate_frequency_bands_energy (audio_data : list R)
    (sample_rate : Z) : result (R * R * R) :=
  match fft audio_data with
  | Raise e => Raise e
  | Ok spectrum =>
      let magnitude := map np.cabs spectrum in
      if (sample_rate =? 0)%Z then Raise ZeroDivisionError
      else
        let freqs := fftfreq (length audio_data) (1 / IZR sample_rate) in
        let positive_freqs := firstn (length freqs / 2) freqs in
        let positive_magnitude := firstn (length magnitude / 2) magnitude in
        let low_freq := 300 in
        let mid_freq := 1000 in
        let high_freq := 3000 in
        let low_energy :=
          np.sum (np.mask positive_magnitude
                    (np.le positive_freqs low_freq)) in
        let mid_energy :=
          np.sum (np.mask positive_magnitude
                    (np.band (np.gt positive_freqs low_freq)
                             (np.le positive_freqs mid_freq))) in
        let high_energy :=
          np.sum (np.mask positive_magnitude
                    (np.band (np.gt positive_freqs mid_freq)
                             (np.le positive_freqs high_freq))) in
        Ok (low_energy, mid_energy, high_energy)
  end.

End Library.
End Parametric.

(** What the code relies on of the two library functions: for a
    non-empty array [np.fft.fft] returns a spectrum of the same length,
    and [np.fft.fftfreq(n, d)] returns [n] frequencies. *)
Definition returns_spectrum (fft : list R -> result (list np.complex))
    : Prop :=
  forall a : list R,
    a <> [] -> exists X, fft a = Ok X /\ length X = length a.

Definition returns_frequencies (fftfreq : nat -> R -> list R) : Prop :=
  forall (n : nat) (d : R), (0 < n)%nat -> length (fftfreq n d) = n.

(** ** The similarity engine on binary64 numbers

    The functions of the similarity engine once more, on the primitive
    binary64 floats: every operation rounds to nearest even, products can
    overflow to infinity or underflow to zero, and comparisons with nan
    are false. *)
Module Binary64.
Import Floats.
Local Open Scope float_scope.

(** [np.dot] adds up the products [a[i] * b[i]].  BLAS does not fix the
    order of the additions; the model adds from left to right, starting
    from 0.0. *)
Fixpoint accumulate (acc : float) (a b : list float) : float :=
  match a, b with
  | x :: a', y :: b' => accumulate (acc + x * y) a' b'
  | _, _ => acc
  end.

Definition inner (a b : list float) : float := accumulate 0 a b.

Definition dot (a b : list float) : result float :=
  if Nat.eqb (length a) (length b) then Ok (inner a b)
  else Raise ValueError.

(** [np.linalg.norm]: the square root of the array's inner product with
    itself. *)
Definition linalg_norm (a : list float) : float := sqrt (inner a a).

(** Python's [min(a, b)] and [max(a, b)]: the first argument is kept
    unless [b < a] (respectively [b > a]); with a nan the comparison is
    false and the first argument is kept. *)
Definition py_min (a b : float) : float := if b <? a then b else a.
Definition py_max (a b : float) : float := if a <? b then b else a.

Definition _calculate_similarity (features1 features2 : list float)
    : result float :=
  let vec1 := features1 in
  let vec2 := features2 in
  match dot vec1 vec2 with
  | Raise e => Raise e
  | Ok dot_product =>
      let norm1 := linalg_norm vec1 in
      let norm2 := linalg_norm vec2 in
      if (norm1 =? 0) || (norm2 =? 0) then Ok 0
      else
        let similarity := dot_product / (norm1 * norm2) in
        Ok (py_max 0 (py_min 1 similarity))
  end.

(** A feature vector has seven entries. *)
Definition FeatureVector (f : list float) : Prop := length f = 7%nat.

(** The vector [-v]. *)
Definition neg (v : list float) : list float := map opp v.

(** A finite number: neither an infinity nor nan. *)
Definition is_finite (x : float) : bool :=
  match Prim2SF x with
  | S754_zero _ | S754_finite _ _ _ => true
  | _ => false
  end.

(** A vector is non-zero when one of its entries differs from 0. *)
Definition nonzero (v : list float) : Prop :=
  Exists (fun x => (x =? 0) = false) v.

(** The sign bit of a number is [s]; nan has no sign. *)
Definition has_sign (s : bool) (f : spec_float) : bool :=
  match f with
  | S754_zero s' | S754_infinity s' | S754_finite s' _ _ => Bool.eqb s s'
  | S754_nan => false
  end.

(** The sign bit is clear, or the number is nan. *)
Definition nonneg_or_nan (f : spec_float) : bool :=
  match f with
  | S754_nan => true
  | _ => has_sign false f
  end.

(** The running sums of [np.dot(v, v)] and of [np.dot(v, -v)] mirror each
    other: the second is the first with its sign flipped, as long as both
    are not still at the initial 0.0. *)
Definition mirror (a' a : float) : Prop :=
  nonneg_or_nan (Prim2SF a') = true
  /\ (Prim2SF a = SFopp (Prim2SF a')
      \/ (Prim2SF a' = S754_zero false /\ Prim2SF a = S754_zero false)).

(** Three feature vectors: one whose square overflows, one whose square
    underflows, and an everyday one. *)
Definition huge_vector : list float := [0x1p600; 0; 0; 0; 0; 0; 0].
Definition plain_vector : list float := [1; 2; 0; 0; 0; 0; 0].

End Binary64.

(** ** Definitions that follow the specification's wording *)

(** The vector [c * v]. *)
Definition scale (c : R) (v : list R) : list R := map (Rmult c) v.

(** [n] samples of silence. *)
Definition silence (n : nat) : list R := repeat 0 n.

(** The arithmetic mean of a non-empty sequence. *)
Definition average (x : list R) : R := np.sum x / INR (length x).

(** The Euclidean norm: the square root of the sum of the squared
    entries. *)
Definition euclidean_norm (v : list R) : R := sqrt (np.sum (map Rsqr v)).

(** The vector [-v]. *)
Definition neg (v : list R) : list R := map Ropp v.

(** The all-zero feature vector. *)
Definition zero_vector : list R := repeat 0 7.

(** A feature vector with a single non-zero entry. *)
Definition unit_vector : list R := [1; 0; 0; 0; 0; 0; 0].

(** Four samples: a unit impulse. *)
Definition impulse : list R := [1; 0; 0; 0].

(** A vector is non-zero when one of its entries is. *)
Definition nonzero (v : list R) : Prop := Exists (fun x => x <> 0) v.

(** The three-valued sign function, with values in [{-1, 0, +1}]. *)
Definition sgn (x : R) : Z :=
  if Rlt_dec x 0 then (-1)%Z else if Req_dec_T x 0 then 0%Z else 1%Z.

(** The number of pairs of consecutive samples whose signs differ. *)
Fixpoint sign_changes (x : list R) : nat :=
  match x with
  | a :: (b :: _) as x' =>
      ((if Z.eq_dec (sgn a) (sgn b) then 0 else 1) + sign_changes x')%nat
  | _ => 0%nat
  end.

(** The sum of [f 0], ..., [f (n - 1)]. *)
Fixpoint bigsum (n : nat) (f : nat -> R) : R :=
  match n with
  | O => 0
  | S n' => bigsum n' f + f n'
  end.

(** The magnitude of DFT bin [k] of the samples [x]: the modulus of the
    sum over [m] of [x[m] * exp(-2 pi i k m / N)]. *)
Definition dft_magnitude (x : list R) (k : nat) : R :=
  let N := length x in
  let re := bigsum N (fun m => nth m x 0 * cos (2 * PI * INR k * INR m / INR N)) in
  let im := bigsum N (fun m => nth m x 0 * sin (2 * PI * INR k * INR m / INR N)) in
  sqrt (re * re + im * im).

(** The frequency of bin [k]: [k * sample_rate / N]. *)
Definition bin_freq (N : nat) (sample_rate : Z) (k : nat) : R :=
  INR k * IZR sample_rate / INR N.


(** What bin [k] contributes to a band: its magnitude when its frequency
    lies in the band, nothing otherwise. *)
Definition contribution (x : list R) (sample_rate : Z)
    (inband : R -> bool) (k : nat) : R :=
  if inband (bin_freq (length x) sample_rate k) then dft_magnitude x k else 0.

Definition low_b (f : R) : bool := if Rle_dec f 300 then true else false.
Definition mid_b (f : R) : bool :=
  if Rlt_dec 300 f then (if Rle_dec f 1000 then true else false) else false.
Definition high_b (f : R) : bool :=
  if Rlt_dec 1000 f then (if Rle_dec f 3000 then true else false) else false.

(** The energy of a band: the sum of the contributions of the bins of the
    first half of the spectrum. *)
Definition band_energy (x : list R) (sample_rate : Z)
    (inband : R -> bool) : R :=
  bigsum (length x / 2) (contribution x sample_rate inband).

(** The magnitude-weighted mean frequency over the first half of the
    spectrum, and 0 when the magnitudes sum to 0. *)
Definition weighted_mean_frequency (x : list R) (sample_rate : Z) : R :=
  let N := length x in
  let total := bigsum (N / 2) (dft_magnitude x) in
  if Req_dec_T total 0 then 0
  else bigsum (N / 2)
         (fun k => bin_freq N sample_rate k * dft_magnitude x k) / total.

(** The seven features of non-empty samples, in the order of the feature
    vector: mean absolute amplitude, population standard deviation,
    zero-crossing rate, spectral centroid, and the low, mid and high band
    energies. *)
Definition feature_values (x : list R) (sample_rate : Z) : list R :=
  [average (map Rabs x);
   sqrt (average (map (fun v => (v - average x) * (v - average x)) x));
   INR (sign_changes x) / INR (length x);
   weighted_mean_frequency x sample_rate;
   band_energy x sample_rate low_b;
   band_energy x sample_rate mid_b;
   band_energy x sample_rate high_b].

(** The magnitude of bin [k] of a computed spectrum, and entry [k] of a
    computed frequency array. *)
Definition magnitude_at (X : list np.complex) (k : nat) : R :=
  np.cabs (nth k X (0, 0)).

Definition frequency_at (F : list R) (k : nat) : R := nth k F 0.

(** The sum of the magnitudes of the first [n] bins whose frequency lies
    in a band. *)
Definition band_sum (X : list np.complex) (F : list R) (n : nat)
    (inband : R -> bool) : R :=
  bigsum n (fun k => if inband (frequency_at F k) then magnitude_at X k
                     else 0).

(** Frequencies of at most 3000 Hz: the union of the three bands. *)
Definition upto_high_b (f : R) : bool :=
  if Rle_dec f 3000 then true else false.

(** * Properties of the similarity engine *)

(** Case analysis on every comparison of reals that the goal branches
    on; linear arithmetic closes the impossible cases. *)
Ltac cases_cmp :=
  repeat match goal with
    | |- context [Rlt_dec ?a ?b] => destruct (Rlt_dec a b)
    | |- context [Rle_dec ?a ?b] => destruct (Rle_dec a b)
    | |- context [Rgt_dec ?a ?b] => destruct (Rgt_dec a b)
    | |- context [Rge_dec ?a ?b] => destruct (Rge_dec a b)
    | |- context [Req_dec_T ?a ?b] => destruct (Req_dec_T a b)
    | H : context [Rlt_dec ?a ?b] |- _ => destruct (Rlt_dec a b)
    | H : context [Rle_dec ?a ?b] |- _ => destruct (Rle_dec a b)
    | H : context [Rgt_dec ?a ?b] |- _ => destruct (Rgt_dec a b)
    | H : context [Rge_dec ?a ?b] |- _ => destruct (Rge_dec a b)
    | H : context [Req_dec_T ?a ?b] |- _ => destruct (Req_dec_T a b)
    end;
  try first [reflexivity | lra | discriminate | contradiction].

Section Similarity.

Lemma inner_self_squares (v : list R) :
  np.inner v v = np.sum (map Rsqr v).
Proof.
  unfold np.inner.
  induction v as [|x v IH]; simpl; [reflexivity|].
  rewrite IH. reflexivity.
Qed.

Lemma linalg_norm_euclidean (v : list R) :
  np.linalg_norm v = euclidean_norm v.
Proof.
  unfold np.linalg_norm, euclidean_norm.
  now rewrite inner_self_squares.
Qed.

Lemma inner_self_nonneg (v : list R) : 0 <= np.inner v v.
Proof.
  unfold np.inner.
  induction v as [|x v IH]; simpl; [lra|].
  pose proof (Rle_0_sqr x) as Hx. unfold Rsqr in Hx. lra.
Qed.

Lemma inner_self_zero (v : list R) :
  np.inner v v = 0 <-> Forall (fun x => x = 0) v.
Proof.
  unfold np.inner.
  induction v as [|x v IH]; simpl.
  - split; [constructor | reflexivity].
  - pose proof (inner_self_nonneg v) as Hv. unfold np.inner in Hv.
    pose proof (Rle_0_sqr x) as Hx. unfold Rsqr in Hx.
    split.
    + intros H. constructor.
      * apply Rsqr_0_uniq. unfold Rsqr. lra.
      * apply IH. lra.
    + intros H. inversion H as [|? ? H0 Hrest]; subst.
      apply IH in Hrest. lra.
Qed.

Lemma linalg_norm_nonneg (v : list R) : 0 <= np.linalg_norm v.
Proof. apply sqrt_pos. Qed.

Lemma linalg_norm_zero (v : list R) :
  np.linalg_norm v = 0 <-> Forall (fun x => x = 0) v.
Proof.
  unfold np.linalg_norm. rewrite <- inner_self_zero.
  split.
  - intros H. apply sqrt_eq_0; [apply inner_self_nonneg | exact H].
  - intros ->. apply sqrt_0.
Qed.

Lemma nonzero_norm (v : list R) : nonzero v <-> np.linalg_norm v <> 0.
Proof.
  unfold nonzero. rewrite linalg_norm_zero.
  split.
  - intros Hex Hall. apply Exists_exists in Hex as (x & Hin & Hx).
    rewrite Forall_forall in Hall. auto.
  - intros Hn. apply neg_Forall_Exists_neg; [|exact Hn].
    intros x. destruct (Req_dec_T x 0); [left|right]; assumption.
Qed.

Lemma linalg_norm_sqr (v : list R) :
  np.linalg_norm v * np.linalg_norm v = np.inner v v.
Proof. apply sqrt_sqrt, inner_self_nonneg. Qed.

Lemma inner_neg_neg (v : list R) : np.inner (neg v) (neg v) = np.inner v v.
Proof.
  unfold np.inner, neg.
  induction v as [|x v IH]; simpl; [reflexivity|].
  rewrite IH. lra.
Qed.

Lemma is_zero_true (x : R) : is_zero x = true <-> x = 0.
Proof. unfold is_zero. split; intros H; cases_cmp. Qed.

Lemma is_zero_false (x : R) : is_zero x = false <-> x <> 0.
Proof. unfold is_zero. split; intros H; cases_cmp. Qed.

Lemma ge_bool_true (x y : R) : ge_bool x y = true <-> y <= x.
Proof. unfold ge_bool. split; intros H; cases_cmp. Qed.

Lemma ge_bool_false (x y : R) : ge_bool x y = false <-> x < y.
Proof. unfold ge_bool. split; intros H; cases_cmp. Qed.

(** The clamp [max(0.0, min(1.0, s))] as a case table. *)
Lemma clamp_cases (s : R) :
  (s <= 0 /\ py_max 0 (py_min 1 s) = 0) \/
  (0 < s < 1 /\ py_max 0 (py_min 1 s) = s) \/
  (1 <= s /\ py_max 0 (py_min 1 s) = 1).
Proof.
  unfold py_max, py_min.
  destruct (Rle_lt_dec s 0) as [H0|H0]; [left|].
  - split; [exact H0 | cases_cmp].
  - destruct (Rlt_le_dec s 1) as [H1|H1]; [right; left | right; right].
    + split; [lra | cases_cmp].
    + split; [exact H1 | cases_cmp].
Qed.

Lemma dot_same_length (a b : list R) :
  length a = length b -> np.dot a b = Ok (np.inner a b).
Proof.
  intros H. unfold np.dot. rewrite H, Nat.eqb_refl. reflexivity.
Qed.

(** The value of the similarity on arrays of one shape. *)
Lemma same_shape_similarity (a b : list R) :
  length a = length b ->
  _calculate_similarity a b =
    Ok (if is_zero (np.linalg_norm a) || is_zero (np.linalg_norm b)
        then 0
        else py_max 0 (py_min 1
               (np.inner a b / (np.linalg_norm a * np.linalg_norm b)))).
Proof.
  intros H. unfold _calculate_similarity.
  rewrite (dot_same_length a b H).
  destruct (is_zero (np.linalg_norm a) || is_zero (np.linalg_norm b));
    reflexivity.
Qed.

Lemma shape_mismatch_raises (a b : list R) :
  length a <> length b -> _calculate_similarity a b = Raise ValueError.
Proof.
  intros H. unfold _calculate_similarity, np.dot.
  apply Nat.eqb_neq in H. rewrite H. reflexivity.
Qed.

Lemma self_similarity_one (v : list R) :
  nonzero v -> _calculate_similarity v v = Ok 1.
Proof.
  intros Hnz. apply nonzero_norm in Hnz.
  rewrite same_shape_similarity by reflexivity.
  apply is_zero_false in Hnz as Hz. rewrite Hz. simpl.
  rewrite linalg_norm_sqr.
  assert (Hd : np.inner v v <> 0).
  { rewrite <- linalg_norm_sqr. now apply Rmult_integral_contrapositive. }
  replace (np.inner v v / np.inner v v) with 1 by (field; exact Hd).
  destruct (clamp_cases 1) as [[H _]|[[H _]|[_ H]]]; try lra.
  now rewrite H.
Qed.

Lemma zero_norm_left (a b : list R) :
  length a = length b -> np.linalg_norm a = 0 ->
  _calculate_similarity a b = Ok 0.
Proof.
  intros Hlen H0. rewrite same_shape_similarity by exact Hlen.
  apply is_zero_true in H0. rewrite H0. reflexivity.
Qed.

Lemma zero_norm_right (a b : list R) :
  length a = length b -> np.linalg_norm b = 0 ->
  _calculate_similarity a b = Ok 0.
Proof.
  intros Hlen H0. rewrite same_shape_similarity by exact Hlen.
  apply is_zero_true in H0. rewrite H0. now rewrite orb_true_r.
Qed.

End Similarity.

(** * Properties of the verification service *)

Section Service.

Implicit Types (self : VoiceVerificationService) (u : Z) (f : list R).

Lemma zero_vector_feature : FeatureVector zero_vector.
Proof. reflexivity. Qed.

Lemma zero_vector_norm : np.linalg_norm zero_vector = 0.
Proof. apply linalg_norm_zero. repeat constructor. Qed.

Lemma lookup_registered now u f self :
  user_voiceprints (snd (register_user_voiceprint now u f self)) !! u
  = Some (mkRecord f now).
Proof. simpl. apply lookup_insert_eq. Qed.

(** Verifying a registered user compares the stored features with the
    candidate. *)
Lemma verify_registered self u rec f (t s : R) :
  user_voiceprints self !! u = Some rec ->
  _calculate_similarity (features rec) f = Ok s ->
  verify_user_voiceprint u f t self = (Ok (ge_bool s t, s), self).
Proof.
  intros Hu Hs. unfold verify_user_voiceprint. rewrite Hu. simpl.
  rewrite Hs. reflexivity.
Qed.

Lemma verify_unregistered self u f (t : R) :
  user_voiceprints self !! u = None ->
  verify_user_voiceprint u f t self = (Ok (false, 0), self).
Proof.
  intros Hu. unfold verify_user_voiceprint. rewrite Hu. reflexivity.
Qed.

(** Registration followed by verification with the same features: the
    score is the self-similarity of the features. *)
Lemma register_then_verify self now u f (t s : R) :
  _calculate_similarity f f = Ok s ->
  fst (verify_user_voiceprint u f t
         (snd (register_user_voiceprint now u f self)))
  = Ok (ge_bool s t, s).
Proof.
  intros Hs.
  rewrite (verify_registered _ u (mkRecord f now) f t s);
    [reflexivity | apply lookup_registered | exact Hs].
Qed.

Lemma fst_verify_unregistered self u f (t : R) :
  user_voiceprints self !! u = None ->
  fst (verify_user_voiceprint u f t self) = Ok (false, 0).
Proof. intros Hu. now rewrite verify_unregistered. Qed.

End Service.


(** C2: for every store state in which [user_id] has no record, every
    candidate feature vector and every threshold, verification returns
    exactly [(false, 0.0)] and raises nothing. *)
Theorem verify_unregistered_fails_closed
    (self : VoiceVerificationService) (user_id : Z) (f : list R) (t : R) :
  user_voiceprints self !! user_id = None ->
  fst (verify_user_voiceprint user_id f t self) = Ok (false, 0).
Proof.
  apply fst_verify_unregistered.
Qed.

Lemma verify_unregistered_fails_closed_witness :
  fst (verify_user_voiceprint 7 [1; 2; 3] 0.5 init) = Ok (false, 0).
Proof.
  apply verify_unregistered_fails_closed.
  unfold init; simpl. apply lookup_empty.
Defined.

(** C3: for every pair of feature vectors [a] and [b], if the Euclidean
    norm of [a] is 0 or the Euclidean norm of [b] is 0, the similarity is
    exactly 0.0; in particular the all-zero vector compared with itself
    gives 0.0, not 1.0. *)
Theorem similarity_zero_norm (a b : list R) :
  FeatureVector a -> FeatureVector b ->
  euclidean_norm a = 0 \/ euclidean_norm b = 0 ->
  _calculate_similarity a b = Ok 0
  /\ _calculate_similarity zero_vector zero_vector = Ok 0
  /\ _calculate_similarity zero_vector zero_vector <> Ok 1.
Proof.
  intros Ha Hb H.
  assert (Hz : _calculate_similarity zero_vector zero_vector = Ok 0).
  { apply zero_norm_left; [reflexivity | apply zero_vector_norm]. }
  split; [|split].
  - rewrite <- !linalg_norm_euclidean in H.
    assert (Hlen : length a = length b) by (rewrite Ha, Hb; reflexivity).
    destruct H as [H|H].
    + now apply zero_norm_left.
    + now apply zero_norm_right.
  - exact Hz.
  - rewrite Hz. intros Heq. injection Heq. lra.
Qed.

Lemma similarity_zero_norm_witness :
  _calculate_similarity zero_vector unit_vector = Ok 0
  /\ _calculate_similarity zero_vector zero_vector = Ok 0
  /\ _calculate_similarity zero_vector zero_vector <> Ok 1.
Proof.
  apply similarity_zero_norm.
  - reflexivity.
  - reflexivity.
  - left. rewrite <- linalg_norm_euclidean. apply zero_vector_norm.
Defined.

(** C9: [remove_user_voiceprint] returns [true] exactly when a record
    for [user_id] existed, and then that record, and no other, is
    deleted; removing an absent [user_id] returns [false] and leaves the
    store unchanged; after a removal, verification of that [user_id]
    returns [(false, 0.0)]. *)
Theorem remove_user_voiceprint_spec
    (self : VoiceVerificationService) (user_id : Z) :
  let removed := fst (remove_user_voiceprint user_id self) in
  let self' := snd (remove_user_voiceprint user_id self) in
  (removed = true <-> is_Some (user_voiceprints self !! user_id))
  /\ (removed = true ->
      user_voiceprints self' = delete user_id (user_voiceprints self)
      /\ user_voiceprints self' !! user_id = None
      /\ forall u, u <> user_id ->
           user_voiceprints self' !! u = user_voiceprints self !! u)
  /\ (user_voiceprints self !! user_id = None ->
      removed = false /\ self' = self)
  /\ (forall (f : list R) (t : R),
        fst (verify_user_voiceprint user_id f t self') = Ok (false, 0)).
Proof.
  unfold remove_user_voiceprint.
  destruct (user_voiceprints self !! user_id) as [rec|] eqn:Hu; simpl.
  - split; [split; [eauto | reflexivity]|].
    split; [|split].
    + intros _. split; [reflexivity|]. split.
      * apply lookup_delete_eq.
      * intros u Hne. now apply lookup_delete_ne.
    + discriminate.
    + intros f t. apply fst_verify_unregistered.
      simpl. apply lookup_delete_eq.
  - split; [split; [discriminate | intros [? ?]; discriminate]|].
    split; [discriminate|]. split; [auto|].
    intros f t. now apply fst_verify_unregistered.
Qed.

(** C10: [verify_user_voiceprint] leaves the voiceprint store unchanged:
    the service object after the call is the one before it, so the set
    of registered user_ids and every stored record are the same. *)
Theorem verify_preserves_store
    (self : VoiceVerificationService) (user_id : Z) (f : list R) (t : R) :
  let self' := snd (verify_user_voiceprint user_id f t self) in
  self' = self
  /\ dom (user_voiceprints self') = dom (user_voiceprints self)
  /\ forall u, user_voiceprints self' !! u = user_voiceprints self !! u.
Proof.
  assert (H : snd (verify_user_voiceprint user_id f t self) = self).
  { unfold verify_user_voiceprint.
    destruct (user_voiceprints self !! user_id) as [rec|]; [|reflexivity].
    simpl. destruct (_calculate_similarity (features rec) f); reflexivity. }
  simpl. rewrite H. auto.
Qed.

(** * Properties of the signal analyzer *)

Section ZeroCrossing.

(** The difference of two NumPy signs is non-zero exactly when the
    three-valued signs differ. *)
Lemma sign_diff_zero (a b : R) :
  np.sign1 b - np.sign1 a = 0 <-> sgn a = sgn b.
Proof.
  unfold np.sign1, sgn.
  split; intros H; cases_cmp.
Qed.

Lemma zero_crossings_count (x : list R) :
  np.count (np.ne0 (np.diff (np.sign x))) = sign_changes x.
Proof.
  induction x as [|a x IH]; [reflexivity|].
  destruct x as [|b x]; [reflexivity|].
  change (np.sign (a :: b :: x))
    with (np.sign1 a :: np.sign (b :: x)).
  change (np.sign (b :: x)) with (np.sign1 b :: np.sign x) in *.
  change (np.diff (np.sign1 a :: np.sign1 b :: np.sign x))
    with (np.sign1 b - np.sign1 a :: np.diff (np.sign1 b :: np.sign x)).
  change (sign_changes (a :: b :: x))
    with ((if Z.eq_dec (sgn a) (sgn b) then 0 else 1)
          + sign_changes (b :: x))%nat.
  rewrite <- IH.
  unfold np.ne0 at 1. rewrite map_cons. fold (np.ne0).
  destruct (Req_dec_T (np.sign1 b - np.sign1 a) 0) as [H0|H0];
    destruct (Z.eq_dec (sgn a) (sgn b)) as [Hs|Hs]; simpl.
  - reflexivity.
  - apply sign_diff_zero in H0. contradiction.
  - apply sign_diff_zero in Hs. contradiction.
  - reflexivity.
Qed.

Lemma sign_changes_bound (x : list R) :
  (sign_changes x <= length x - 1)%nat.
Proof.
  induction x as [|a x IH]; [simpl; lia|].
  destruct x as [|b x]; [simpl; lia|].
  change (sign_changes (a :: b :: x))
    with ((if Z.eq_dec (sgn a) (sgn b) then 0 else 1)
          + sign_changes (b :: x))%nat.
  simpl length in *. destruct (Z.eq_dec (sgn a) (sgn b)); lia.
Qed.

End ZeroCrossing.

(** C6: for every non-empty sample sequence, the zero-crossing rate is
    the number of pairs of consecutive samples whose three-valued signs
    differ, divided by the number of samples (not by the number of
    pairs). *)
Theorem zero_crossing_rate_spec (audio_data : list R) :
  audio_data <> [] ->
  _calculate_zero_crossing_rate audio_data
  = Some (INR (sign_changes audio_data) / INR (length audio_data)).
Proof.
  intros Hne. unfold _calculate_zero_crossing_rate.
  rewrite zero_crossings_count.
  destruct audio_data as [|a x]; [contradiction | reflexivity].
Qed.

Section Spectrum.

(** *** Arrays given by a function of the index *)

Lemma sum_app (a b : list R) : np.sum (a ++ b) = np.sum a + np.sum b.
Proof. induction a as [|x a IH]; simpl; [lra | rewrite IH; lra]. Qed.

Lemma sum_tabulate (n : nat) (h : nat -> R) :
  np.sum (map h (seq 0 n)) = bigsum n h.
Proof.
  induction n as [|n IH]; [reflexivity|].
  rewrite seq_S, map_app, sum_app, IH. simpl. lra.
Qed.

Lemma bigsum_ext (n : nat) (g h : nat -> R) :
  (forall k, (k < n)%nat -> g k = h k) -> bigsum n g = bigsum n h.
Proof.
  induction n as [|n IH]; intros H; [reflexivity|].
  simpl. rewrite IH by (intros k Hk; apply H; lia).
  rewrite H by lia. reflexivity.
Qed.

Lemma bigsum_plus (n : nat) (g h : nat -> R) :
  bigsum n (fun k => g k + h k) = bigsum n g + bigsum n h.
Proof. induction n as [|n IH]; simpl; [lra | rewrite IH; lra]. Qed.

Lemma mul_tabulate (l : list nat) (g h : nat -> R) :
  np.mul (map g l) (map h l) = map (fun k => g k * h k) l.
Proof. induction l as [|k l IH]; simpl; [reflexivity | now rewrite IH]. Qed.

Lemma band_tabulate (l : list nat) (p q : nat -> bool) :
  np.band (map p l) (map q l) = map (fun k => p k && q k) l.
Proof. induction l as [|k l IH]; simpl; [reflexivity | now rewrite IH]. Qed.

Lemma sum_mask_tabulate (l : list nat) (g : nat -> R) (p : nat -> bool) :
  np.sum (np.mask (map g l) (map p l))
  = np.sum (map (fun k => if p k then g k else 0) l).
Proof.
  induction l as [|k l IH]; simpl; [reflexivity|].
  destruct (p k); simpl; rewrite IH; lra.
Qed.

Lemma firstn_tabulate {A : Type} (h : nat -> A) (m n : nat) :
  (m <= n)%nat -> firstn m (map h (seq 0 n)) = map h (seq 0 m).
Proof.
  intros Hmn. rewrite firstn_map. f_equal.
  change (firstn m (seq 0 n)) with (take m (seq 0 n)).
  rewrite take_seq. now rewrite Nat.min_l by exact Hmn.
Qed.

Lemma imap_tabulate (h : nat -> R -> R) (a : list R) :
  imap h a = map (fun m => h m (nth m a 0)) (seq 0 (length a)).
Proof.
  revert h; induction a as [|x a IH]; intros h; [reflexivity|].
  simpl. f_equal. rewrite IH, <- seq_shift, map_map. reflexivity.
Qed.

(** *** The magnitude spectrum *)

Lemma cabs_dft_bin (x : list R) (k : nat) :
  np.cabs (np.dft_bin x k) = dft_magnitude x k.
Proof.
  unfold np.cabs, np.dft_bin, dft_magnitude, np.phase. simpl fst; simpl snd.
  rewrite !imap_tabulate, !sum_tabulate.
  f_equal. ring.
Qed.

Lemma fft_nonempty (x : list R) :
  x <> [] -> np.fft x = Ok (map (np.dft_bin x) (seq 0 (length x))).
Proof. destruct x; [contradiction | reflexivity]. Qed.

Lemma positive_magnitude_tabulate (x : list R) :
  firstn
    (length (map np.cabs (map (np.dft_bin x) (seq 0 (length x)))) / 2)
    (map np.cabs (map (np.dft_bin x) (seq 0 (length x))))
  = map (dft_magnitude x) (seq 0 (length x / 2)).
Proof.
  rewrite !length_map, length_seq, map_map.
  rewrite firstn_tabulate by (apply Nat.Div0.div_le_upper_bound; lia).
  apply map_ext. intros k. apply cabs_dft_bin.
Qed.

(** *** The bin frequencies *)

Lemma arange_from_zero (N : Z) :
  np.arange 0 N = map Z.of_nat (seq 0 (Z.to_nat N)).
Proof.
  unfold np.arange. rewrite Z.sub_0_r. apply map_ext. intros i. lia.
Qed.

Lemma length_arange (lo hi : Z) :
  length (np.arange lo hi) = Z.to_nat (hi - lo).
Proof. unfold np.arange. now rewrite length_map, length_seq. Qed.

Lemma length_fftfreq (n : nat) (d : R) :
  (0 < n)%nat -> length (np.fftfreq n d) = n.
Proof.
  intros Hn. unfold np.fftfreq.
  rewrite length_map, length_app, !length_arange.
  pose proof (Z.div_mod (Z.of_nat n - 1) 2 ltac:(lia)) as H1.
  pose proof (Z.mod_pos_bound (Z.of_nat n - 1) 2 ltac:(lia)) as H2.
  pose proof (Z.div_mod (Z.of_nat n) 2 ltac:(lia)) as H3.
  pose proof (Z.mod_pos_bound (Z.of_nat n) 2 ltac:(lia)) as H4.
  lia.
Qed.

Lemma half_le_positive_part (n : nat) :
  (0 < n)%nat -> (n / 2 <= Z.to_nat ((Z.of_nat n - 1) / 2 + 1))%nat.
Proof.
  intros Hn.
  pose proof (Z.div_mod (Z.of_nat n - 1) 2 ltac:(lia)) as H1.
  pose proof (Z.mod_pos_bound (Z.of_nat n - 1) 2 ltac:(lia)) as H2.
  pose proof (Nat.div_mod_eq n 2) as H3.
  pose proof (Nat.mod_upper_bound n 2 ltac:(lia)) as H4.
  lia.
Qed.

Lemma scale_bin_freq (n : nat) (sample_rate : Z) (k : nat) :
  (0 < n)%nat -> sample_rate <> 0%Z ->
  IZR (Z.of_nat k) * (1 / (INR n * (1 / IZR sample_rate)))
  = bin_freq n sample_rate k.
Proof.
  intros Hn Hsr. unfold bin_freq. rewrite <- INR_IZR_INZ.
  assert (INR n <> 0) by (apply not_0_INR; lia).
  assert (IZR sample_rate <> 0) by (now apply not_0_IZR).
  field. split; assumption.
Qed.

Lemma positive_freqs_tabulate (n : nat) (sample_rate : Z) :
  (0 < n)%nat -> sample_rate <> 0%Z ->
  firstn (length (np.fftfreq n (1 / IZR sample_rate)) / 2)
    (np.fftfreq n (1 / IZR sample_rate))
  = map (bin_freq n sample_rate) (seq 0 (n / 2)).
Proof.
  intros Hn Hsr. rewrite length_fftfreq by exact Hn.
  unfold np.fftfreq. rewrite arange_from_zero, map_app, map_map.
  rewrite firstn_app.
  rewrite length_map, length_seq.
  pose proof (half_le_positive_part n Hn) as Hle.
  replace (n / 2 - Z.to_nat ((Z.of_nat n - 1) / 2 + 1))%nat with 0%nat
    by lia.
  rewrite firstn_0, app_nil_r, firstn_tabulate by exact Hle.
  apply map_ext. intros k. now apply scale_bin_freq.
Qed.

(** *** The two spectral functions on index-given arrays *)

Lemma le_tabulate (l : list nat) (g : nat -> R) (c : R) :
  np.le (map g l) c
  = map (fun k => if Rle_dec (g k) c then true else false) l.
Proof. unfold np.le. now rewrite map_map. Qed.

Lemma gt_tabulate (l : list nat) (g : nat -> R) (c : R) :
  np.gt (map g l) c
  = map (fun k => if Rgt_dec (g k) c then true else false) l.
Proof. unfold np.gt. now rewrite map_map. Qed.




Lemma mid_mask (f : R) :
  (if Rgt_dec f 300 then true else false)
  && (if Rle_dec f 1000 then true else false) = mid_b f.
Proof. unfold mid_b. cases_cmp. Qed.

Lemma high_mask (f : R) :
  (if Rgt_dec f 1000 then true else false)
  && (if Rle_dec f 3000 then true else false) = high_b f.
Proof. unfold high_b. cases_cmp. Qed.


(** The masked sum over the first half of the spectrum is the sum of
    the contributions of its bins. *)
Lemma masked_sum_band (x : list R) (sample_rate : Z)
    (p : nat -> bool) (inband : R -> bool) :
  (forall k, p k = inband (bin_freq (length x) sample_rate k)) ->
  np.sum (np.mask (map (dft_magnitude x) (seq 0 (length x / 2)))
            (map p (seq 0 (length x / 2))))
  = band_energy x sample_rate inband.
Proof.
  intros Hp. rewrite sum_mask_tabulate, sum_tabulate.
  unfold band_energy. apply bigsum_ext. intros k _.
  unfold contribution. now rewrite Hp.
Qed.

(** From here on the samples are non-empty and the sample rate is not
    zero, so that neither [np.fft.fft] nor [1 / sample_rate] raises. *)
Section Nonempty.

Variables (x : list R) (sample_rate : Z).
Hypothesis Hx : x <> [].
Hypothesis Hsr : sample_rate <> 0%Z.

Lemma length_pos : (0 < length x)%nat.
Proof. destruct x; [contradiction | simpl; lia]. Qed.

Lemma sample_rate_test : (sample_rate =? 0)%Z = false.
Proof. now apply Z.eqb_neq. Qed.

Lemma bands_energy_nonempty :
  _calculate_frequency_bands_energy x sample_rate
  = Ok (band_energy x sample_rate low_b,
        band_energy x sample_rate mid_b,
        band_energy x sample_rate high_b).
Proof.
  unfold _calculate_frequency_bands_energy.
  rewrite (fft_nonempty x Hx), sample_rate_test. cbv zeta.
  rewrite positive_magnitude_tabulate.
  rewrite (positive_freqs_tabulate (length x) sample_rate length_pos Hsr).
  rewrite !le_tabulate, !gt_tabulate, !band_tabulate.
  f_equal. f_equal; [f_equal|].
  - apply masked_sum_band. reflexivity.
  - apply masked_sum_band. intros k. apply mid_mask.
  - apply masked_sum_band. intros k. apply high_mask.
Qed.

Lemma spectral_centroid_nonempty :
  _calculate_spectral_centroid x sample_rate
  = Ok (weighted_mean_frequency x sample_rate).
Proof.
  unfold _calculate_spectral_centroid.
  rewrite (fft_nonempty x Hx), sample_rate_test. cbv zeta.
  rewrite positive_magnitude_tabulate.
  rewrite (positive_freqs_tabulate (length x) sample_rate length_pos Hsr).
  rewrite mul_tabulate, !sum_tabulate.
  unfold weighted_mean_frequency, is_zero.
  destruct (Req_dec_T (bigsum (length x / 2) (dft_magnitude x)) 0);
    reflexivity.
Qed.

End Nonempty.

Lemma fft_empty : np.fft [] = Raise ValueError.
Proof. reflexivity. Qed.

End Spectrum.

(** * Worked examples *)

Section Examples.

Lemma sgn_pos (x : R) : 0 < x -> sgn x = 1%Z.
Proof. intros H. unfold sgn. cases_cmp. Qed.

Lemma sgn_neg (x : R) : x < 0 -> sgn x = (-1)%Z.
Proof. intros H. unfold sgn. cases_cmp. Qed.

Lemma sgn_zero : sgn 0 = 0%Z.
Proof. unfold sgn. cases_cmp. Qed.

(** Two sign changes among three samples: the rate is 2/3, not 2/2. *)
Example sign_changes_through_zero : sign_changes [1; 0; -1] = 2%nat.
Proof.
  simpl. rewrite (sgn_pos 1), sgn_zero, (sgn_neg (-1)) by lra.
  reflexivity.
Qed.

(** The unit impulse has a flat magnitude spectrum. *)
Lemma impulse_magnitude (k : nat) : dft_magnitude impulse k = 1.
Proof.
  unfold dft_magnitude, impulse. simpl.
  replace (2 * PI * INR k * 0 / (1 + 1 + 1 + 1)) with 0 by (field; lra).
  rewrite cos_0, sin_0.
  replace ((0 + 1 * 1 + 0 * _ + 0 * _ + 0 * _)
           * (0 + 1 * 1 + 0 * _ + 0 * _ + 0 * _)
           + (0 + 1 * 0 + 0 * _ + 0 * _ + 0 * _)
             * (0 + 1 * 0 + 0 * _ + 0 * _ + 0 * _)) with 1 by ring.
  apply sqrt_1.
Qed.

Lemma impulse_bin_freq_0 : bin_freq 4 16000 0 = 0.
Proof. unfold bin_freq. simpl. field. Qed.

Lemma impulse_bin_freq_1 : bin_freq 4 16000 1 = 4000.
Proof. unfold bin_freq. simpl. field. Qed.

(** At 16 kHz the impulse of four samples has two retained bins, at
    0 Hz and at 4000 Hz; the second lies above 3000 Hz and is counted
    in no band, so the band energies sum to 1 although the retained
    magnitudes sum to 2. *)
Example impulse_bands :
  _calculate_frequency_bands_energy impulse 16000 = Ok (1, 0, 0)
  /\ bigsum 2 (dft_magnitude impulse) = 2.
Proof.
  split.
  - rewrite bands_energy_nonempty by (unfold impulse; discriminate).
    unfold band_energy, contribution. simpl length.
    change (4 / 2)%nat with 2%nat. simpl bigsum.
    rewrite impulse_bin_freq_0, impulse_bin_freq_1, !impulse_magnitude.
    unfold low_b, mid_b, high_b. cases_cmp.
    repeat f_equal; ring.
  - simpl. rewrite !impulse_magnitude. ring.
Qed.

Example impulse_centroid :
  _calculate_spectral_centroid impulse 16000 = Ok 2000.
Proof.
  rewrite spectral_centroid_nonempty by (unfold impulse; discriminate).
  unfold weighted_mean_frequency. simpl length.
  change (4 / 2)%nat with 2%nat. simpl bigsum.
  rewrite impulse_bin_freq_0, impulse_bin_freq_1, !impulse_magnitude.
  cases_cmp. f_equal. field.
Qed.

(** Arrays of different shapes make [np.dot] raise, and verification
    with it; the store is untouched. *)
Example verify_shape_mismatch :
  verify_user_voiceprint 42 [1; 2] 0.5
    (snd (register_user_voiceprint 0 42 unit_vector init))
  = (Raise ValueError,
     snd (register_user_voiceprint 0 42 unit_vector init)).
Proof.
  unfold verify_user_voiceprint. rewrite lookup_registered. simpl features.
  rewrite shape_mismatch_raises; [reflexivity|].
  simpl. lia.
Qed.

(** The orthogonal scenario of the specification. *)
Example verify_orthogonal :
  fst (verify_user_voiceprint 42 [0; 1; 0; 0; 0; 0; 0] 0.5
         (snd (register_user_voiceprint 0 42 unit_vector init)))
  = Ok (false, 0).
Proof.
  rewrite (verify_registered _ 42%Z (mkRecord unit_vector 0)
             [0; 1; 0; 0; 0; 0; 0] 0.5 0).
  - simpl. f_equal. f_equal. apply ge_bool_false. lra.
  - apply lookup_registered.
  - simpl features. rewrite same_shape_similarity by reflexivity.
    destruct (is_zero (np.linalg_norm unit_vector)
              || is_zero (np.linalg_norm [0; 1; 0; 0; 0; 0; 0]));
      [reflexivity|].
    f_equal. unfold np.inner, unit_vector. simpl.
    replace (1 * 0 + (0 * 1 + (0 * 0 + (0 * 0 + (0 * 0 + (0 * 0
             + (0 * 0 + 0))))))) with 0 by ring.
    unfold Rdiv. rewrite Rmult_0_l.
    destruct (clamp_cases 0) as [[_ H]|[[H _]|[H _]]]; lra.
Qed.

End Examples.

Lemma zero_crossing_rate_spec_witness :
  _calculate_zero_crossing_rate [1; 0; -1]
  = Some (INR (sign_changes [1; 0; -1]) / INR (length [1; 0; -1])).
Proof.
  apply zero_crossing_rate_spec. discriminate.
Defined.

(** * Further properties of the similarity engine *)

Section SimilarityAlgebra.

Lemma mul_comm (a b : list R) : np.mul a b = np.mul b a.
Proof.
  revert b; induction a as [|x a IH]; intros [|y b]; simpl;
    try reflexivity.
  rewrite IH. f_equal. apply Rmult_comm.
Qed.

Lemma inner_comm (a b : list R) : np.inner a b = np.inner b a.
Proof. unfold np.inner. now rewrite mul_comm. Qed.

Lemma dot_comm (a b : list R) : np.dot a b = np.dot b a.
Proof.
  unfold np.dot. rewrite (Nat.eqb_sym (length b) (length a)).
  destruct (Nat.eqb (length a) (length b)); [|reflexivity].
  now rewrite inner_comm.
Qed.

Lemma length_scale (c : R) (v : list R) : length (scale c v) = length v.
Proof. unfold scale. apply length_map. Qed.

End SimilarityAlgebra.

(** X1: the similarity is symmetric in its two arguments, for arrays of
    any shapes: both orders return the same score, or both raise. *)
Theorem similarity_symmetric (a b : list R) :
  _calculate_similarity a b = _calculate_similarity b a.
Proof.
  unfold _calculate_similarity. rewrite (dot_comm a b).
  destruct (np.dot b a) as [d|e]; [|reflexivity].
  rewrite (orb_comm (is_zero (np.linalg_norm a))).
  now rewrite (Rmult_comm (np.linalg_norm a)).
Qed.

(** X2: [_calculate_similarity] raises [ValueError] exactly when the two
    arrays differ in length, also when one of them is all zeros (the
    zero-norm guard comes after [np.dot]); on arrays of one length it
    returns a score. *)
Theorem similarity_raises_iff_shapes_differ (a b : list R) :
  (_calculate_similarity a b = Raise ValueError <-> length a <> length b)
  /\ ((exists s, _calculate_similarity a b = Ok s)
      <-> length a = length b).
Proof.
  destruct (Nat.eq_dec (length a) (length b)) as [Hlen|Hlen].
  - rewrite (same_shape_similarity a b Hlen). split; split.
    + discriminate.
    + contradiction.
    + intros _. exact Hlen.
    + intros _. eexists. reflexivity.
  - rewrite (shape_mismatch_raises a b Hlen). split; split.
    + intros _. exact Hlen.
    + reflexivity.
    + intros [s Hs]. discriminate Hs.
    + contradiction.
Qed.

(** * Further properties of the verification service *)

Section ServiceLaws.

Implicit Types (self : VoiceVerificationService) (u : Z) (f : list R).

(** The score of two arrays of one shape lies between 0 and 1. *)
Lemma same_shape_score (a b : list R) :
  length a = length b ->
  exists s, _calculate_similarity a b = Ok s /\ 0 <= s <= 1.
Proof.
  intros Hlen. rewrite (same_shape_similarity a b Hlen).
  eexists. split; [reflexivity|].
  destruct (is_zero (np.linalg_norm a) || is_zero (np.linalg_norm b));
    [lra|].
  destruct (clamp_cases
              (np.inner a b / (np.linalg_norm a * np.linalg_norm b)))
    as [[_ ->]|[[H ->]|[_ ->]]]; lra.
Qed.

(** Every score that the similarity returns lies between 0 and 1. *)
Lemma score_range (a b : list R) (s : R) :
  _calculate_similarity a b = Ok s -> 0 <= s <= 1.
Proof.
  intros Hs.
  destruct (Nat.eq_dec (length a) (length b)) as [Hlen|Hlen].
  - destruct (same_shape_score a b Hlen) as (s' & Hs' & Hr).
    rewrite Hs in Hs'. now injection Hs' as ->.
  - rewrite (shape_mismatch_raises a b Hlen) in Hs. discriminate Hs.
Qed.

(** What a verification that returns has computed. *)
Lemma verify_returns self u f (t : R) (v : bool) (s : R) :
  fst (verify_user_voiceprint u f t self) = Ok (v, s) ->
  (user_voiceprints self !! u = None /\ v = false /\ s = 0)
  \/ (exists rec, user_voiceprints self !! u = Some rec
        /\ _calculate_similarity (features rec) f = Ok s
        /\ v = ge_bool s t).
Proof.
  unfold verify_user_voiceprint.
  destruct (user_voiceprints self !! u) as [rec|]; simpl.
  - destruct (_calculate_similarity (features rec) f) as [s'|e] eqn:Hs;
      simpl; intros H; [|discriminate H].
    injection H as <- <-. right. exists rec. auto.
  - intros H. injection H as <- <-. left. auto.
Qed.

Lemma service_eta self : mkService (user_voiceprints self) = self.
Proof. destruct self. reflexivity. Qed.

End ServiceLaws.

(** X7: [verify_user_voiceprint] raises exactly when the user is
    registered and the stored features and the candidate differ in
    length; the exception is then [ValueError]. *)
Theorem verify_raises_iff
    (self : VoiceVerificationService) (u : Z) (f : list R) (t : R) :
  ((exists e, fst (verify_user_voiceprint u f t self) = Raise e)
   <-> exists rec, user_voiceprints self !! u = Some rec
         /\ length (features rec) <> length f)
  /\ (forall e, fst (verify_user_voiceprint u f t self) = Raise e ->
        e = ValueError).
Proof.
  unfold verify_user_voiceprint.
  destruct (user_voiceprints self !! u) as [rec|]; simpl.
  - destruct (Nat.eq_dec (length (features rec)) (length f)) as [Hl|Hl].
    + rewrite (same_shape_similarity _ _ Hl). simpl. split; [split|].
      * intros [e He]. discriminate He.
      * intros (rec' & Hrec & Hne). injection Hrec as <-. contradiction.
      * intros e He. discriminate He.
    + rewrite (shape_mismatch_raises _ _ Hl). simpl. split; [split|].
      * intros _. exists rec. auto.
      * intros _. exists ValueError. reflexivity.
      * intros e He. now injection He as <-.
  - split; [split|].
    + intros [e He]. discriminate He.
    + intros (rec & Hrec & _). discriminate Hrec.
    + intros e He. discriminate He.
Qed.

(** X8: whenever verification returns [(verified, score)], the score lies
    in [0, 1]; [verified] is true only for a registered user whose score
    reaches the threshold, and for a registered user it is true exactly
    then.  An unregistered user is rejected even when the threshold is 0
    or negative. *)
Theorem verify_score_and_decision
    (self : VoiceVerificationService) (u : Z) (f : list R) (t : R)
    (verified : bool) (score : R) :
  fst (verify_user_voiceprint u f t self) = Ok (verified, score) ->
  0 <= score <= 1
  /\ (verified = true ->
      is_Some (user_voiceprints self !! u) /\ t <= score)
  /\ (is_Some (user_voiceprints self !! u) ->
      (verified = true <-> t <= score)).
Proof.
  intros H.
  apply verify_returns in H as [(Hu & -> & ->)|(rec & Hu & Hs & ->)].
  - split; [lra|]. split; [discriminate|].
    rewrite Hu. intros [? ?]. discriminate.
  - split; [now apply score_range in Hs|].
    rewrite Hu. split.
    + intros Hv. split; [eauto | now apply ge_bool_true].
    + intros _. apply ge_bool_true.
Qed.

Lemma verify_score_and_decision_witness :
  0 <= 0 <= 1
  /\ (false = true -> is_Some (user_voiceprints init !! 7%Z) /\ -1 <= 0)
  /\ (is_Some (user_voiceprints init !! 7%Z) -> (false = true <-> -1 <= 0)).
Proof.
  apply (verify_score_and_decision init 7 [1; 2; 3] (-1) false 0).
  reflexivity.
Defined.

(** X9: a threshold above 1.0 rejects every candidate, also the
    registered features themselves. *)
Theorem verify_threshold_above_one
    (self : VoiceVerificationService) (u : Z) (f : list R) (t : R)
    (verified : bool) (score : R) :
  1 < t ->
  fst (verify_user_voiceprint u f t self) = Ok (verified, score) ->
  verified = false.
Proof.
  intros Ht H.
  apply verify_returns in H as [(_ & -> & _)|(rec & _ & Hs & ->)];
    [reflexivity|].
  apply score_range in Hs. apply ge_bool_false. lra.
Qed.

Lemma verify_threshold_above_one_witness :
  fst (verify_user_voiceprint 42 unit_vector 1.5
         (snd (register_user_voiceprint 0 42 unit_vector init)))
  = Ok (false, 1)
  /\ false = false.
Proof.
  assert (H : fst (verify_user_voiceprint 42 unit_vector 1.5
                     (snd (register_user_voiceprint 0 42 unit_vector init)))
              = Ok (false, 1)).
  { rewrite (register_then_verify init 0%Z 42%Z unit_vector 1.5 1).
    - do 2 f_equal. apply ge_bool_false. lra.
    - apply self_similarity_one. unfold nonzero, unit_vector.
      apply Exists_cons_hd. lra. }
  split; [exact H|].
  apply (verify_threshold_above_one
           (snd (register_user_voiceprint 0 42 unit_vector init))
           42 unit_vector 1.5 false 1); [lra | exact H].
Defined.

(** X10: with a threshold of 0 or below, every candidate of the stored
    length is accepted for a registered user, whatever its content. *)
Theorem verify_threshold_nonpositive
    (self : VoiceVerificationService) (u : Z) (rec : VoiceprintRecord)
    (f : list R) (t : R) :
  user_voiceprints self !! u = Some rec ->
  length (features rec) = length f ->
  t <= 0 ->
  exists score,
    fst (verify_user_voiceprint u f t self) = Ok (true, score).
Proof.
  intros Hu Hlen Ht.
  destruct (same_shape_score _ _ Hlen) as (s & Hs & Hr).
  exists s. rewrite (verify_registered self u rec f t s Hu Hs). simpl.
  do 2 f_equal. apply ge_bool_true. lra.
Qed.

Lemma verify_threshold_nonpositive_witness :
  exists score,
    fst (verify_user_voiceprint 42 zero_vector 0
           (snd (register_user_voiceprint 0 42 unit_vector init)))
    = Ok (true, score).
Proof.
  apply (verify_threshold_nonpositive _ 42 (mkRecord unit_vector 0)).
  - apply lookup_registered.
  - reflexivity.
  - lra.
Defined.

(** X11: lowering the threshold keeps an acceptance: a candidate accepted
    at threshold [t] is accepted, with the same score, at every
    threshold below [t]. *)
Theorem verify_threshold_monotone
    (self : VoiceVerificationService) (u : Z) (f : list R) (t t' : R)
    (score : R) :
  t' <= t ->
  fst (verify_user_voiceprint u f t self) = Ok (true, score) ->
  fst (verify_user_voiceprint u f t' self) = Ok (true, score).
Proof.
  intros Hle H.
  apply verify_returns in H as [(_ & Hf & _)|(rec & Hu & Hs & Hv)];
    [discriminate Hf|].
  rewrite (verify_registered self u rec f t' score Hu Hs). simpl.
  do 2 f_equal. symmetry in Hv. apply ge_bool_true in Hv.
  apply ge_bool_true. lra.
Qed.

Lemma verify_threshold_monotone_witness :
  fst (verify_user_voiceprint 42 unit_vector 0.5
         (snd (register_user_voiceprint 0 42 unit_vector init)))
  = Ok (true, 1).
Proof.
  apply (verify_threshold_monotone _ 42 unit_vector 0.9 0.5 1); [lra|].
  rewrite (register_then_verify init 0%Z 42%Z unit_vector 0.9 1).
  - do 2 f_equal. apply ge_bool_true. lra.
  - apply self_similarity_one. unfold nonzero, unit_vector.
    apply Exists_cons_hd. lra.
Defined.

(** X12: registration overwrites: registering a user twice leaves the
    service exactly as the second registration alone would; nothing of
    the first record (features or timestamp) is kept. *)
Theorem register_last_write_wins
    (self : VoiceVerificationService) (now1 now2 u : Z) (f1 f2 : list R) :
  register_user_voiceprint now2 u f2
    (snd (register_user_voiceprint now1 u f1 self))
  = register_user_voiceprint now2 u f2 self.
Proof.
  unfold register_user_voiceprint. simpl.
  f_equal. f_equal. apply insert_insert_eq.
Qed.

(** X13: registering one user does not affect another: verification of
    any other user_id gives the same result before and after. *)
Theorem register_other_user_unaffected
    (self : VoiceVerificationService) (now u u' : Z) (g f : list R)
    (t : R) :
  u' <> u ->
  fst (verify_user_voiceprint u' f t
         (snd (register_user_voiceprint now u g self)))
  = fst (verify_user_voiceprint u' f t self).
Proof.
  intros Hne. unfold verify_user_voiceprint, register_user_voiceprint.
  simpl. rewrite lookup_insert_ne by congruence.
  destruct (user_voiceprints self !! u') as [rec|]; [|reflexivity].
  simpl. destruct (_calculate_similarity (features rec) f); reflexivity.
Qed.

Lemma register_other_user_unaffected_witness :
  fst (verify_user_voiceprint 2 unit_vector 0.8
         (snd (register_user_voiceprint 0 1 unit_vector init)))
  = fst (verify_user_voiceprint 2 unit_vector 0.8 init).
Proof.
  apply register_other_user_unaffected. lia.
Defined.

(** X14: registering a user who was not registered and then removing
    that user returns [true] and restores the service exactly. *)
Theorem register_then_remove
    (self : VoiceVerificationService) (now u : Z) (f : list R) :
  user_voiceprints self !! u = None ->
  remove_user_voiceprint u (snd (register_user_voiceprint now u f self))
  = (true, self).
Proof.
  intros Hu. unfold remove_user_voiceprint, register_user_voiceprint.
  simpl. rewrite lookup_insert_eq. f_equal.
  rewrite delete_insert_eq, delete_id by exact Hu.
  apply service_eta.
Qed.

Lemma register_then_remove_witness :
  remove_user_voiceprint 1 (snd (register_user_voiceprint 0 1 unit_vector init))
  = (true, init).
Proof.
  apply register_then_remove. apply lookup_empty.
Defined.

(** X15: removal is idempotent: a second removal of the same user_id
    returns [false] and changes nothing. *)
Theorem remove_twice (self : VoiceVerificationService) (u : Z) :
  remove_user_voiceprint u (snd (remove_user_voiceprint u self))
  = (false, snd (remove_user_voiceprint u self)).
Proof.
  unfold remove_user_voiceprint at 2 3.
  destruct (user_voiceprints self !! u) as [rec|] eqn:Hu; simpl.
  - unfold remove_user_voiceprint. simpl.
    now rewrite lookup_delete_eq.
  - unfold remove_user_voiceprint. now rewrite Hu.
Qed.

(** X16: removing one user does not affect another: verification of any
    other user_id gives the same result before and after. *)
Theorem remove_other_user_unaffected
    (self : VoiceVerificationService) (u u' : Z) (f : list R) (t : R) :
  u' <> u ->
  fst (verify_user_voiceprint u' f t (snd (remove_user_voiceprint u self)))
  = fst (verify_user_voiceprint u' f t self).
Proof.
  intros Hne. unfold remove_user_voiceprint.
  destruct (user_voiceprints self !! u) as [rec|] eqn:Hu; [|reflexivity].
  unfold verify_user_voiceprint. simpl.
  rewrite lookup_delete_ne by congruence.
  destruct (user_voiceprints self !! u') as [rec'|]; [|reflexivity].
  simpl. destruct (_calculate_similarity (features rec') f); reflexivity.
Qed.

Lemma remove_other_user_unaffected_witness :
  fst (verify_user_voiceprint 2 unit_vector 0.8
         (snd (remove_user_voiceprint 1
                 (snd (register_user_voiceprint 0 2 unit_vector init)))))
  = fst (verify_user_voiceprint 2 unit_vector 0.8
           (snd (register_user_voiceprint 0 2 unit_vector init))).
Proof.
  apply remove_other_user_unaffected. lia.
Defined.

(** * Further properties of the signal analyzer *)

Section Sums.

Lemma bigsum_le (n : nat) (g h : nat -> R) :
  (forall k, (k < n)%nat -> g k <= h k) -> bigsum n g <= bigsum n h.
Proof.
  induction n as [|n IH]; intros H; simpl; [lra|].
  assert (bigsum n g <= bigsum n h) by (apply IH; intros k Hk; apply H; lia).
  assert (g n <= h n) by (apply H; lia). lra.
Qed.

Lemma bigsum_nonneg (n : nat) (g : nat -> R) :
  (forall k, (k < n)%nat -> 0 <= g k) -> 0 <= bigsum n g.
Proof.
  induction n as [|n IH]; intros H; simpl; [lra|].
  assert (0 <= bigsum n g) by (apply IH; intros k Hk; apply H; lia).
  assert (0 <= g n) by (apply H; lia). lra.
Qed.

Lemma bigsum_scal (n : nat) (c : R) (g : nat -> R) :
  bigsum n (fun k => c * g k) = c * bigsum n g.
Proof. induction n as [|n IH]; simpl; [lra | rewrite IH; lra]. Qed.

Lemma bigsum_zero (n : nat) (g : nat -> R) :
  (forall k, (k < n)%nat -> g k = 0) -> bigsum n g = 0.
Proof.
  induction n as [|n IH]; intros H; simpl; [reflexivity|].
  rewrite IH by (intros k Hk; apply H; lia). rewrite H by lia. lra.
Qed.

Lemma dft_magnitude_nonneg (x : list R) (k : nat) : 0 <= dft_magnitude x k.
Proof. unfold dft_magnitude. apply sqrt_pos. Qed.

Lemma contribution_nonneg (x : list R) (sample_rate : Z)
    (inband : R -> bool) (k : nat) :
  0 <= contribution x sample_rate inband k.
Proof.
  unfold contribution.
  destruct (inband _); [apply dft_magnitude_nonneg | lra].
Qed.

Lemma band_energy_nonneg (x : list R) (sample_rate : Z)
    (inband : R -> bool) :
  0 <= band_energy x sample_rate inband.
Proof.
  unfold band_energy. apply bigsum_nonneg.
  intros k _. apply contribution_nonneg.
Qed.

(** A retained bin lies below half the sample rate, by at least half a
    bin width. *)
Lemma bin_freq_below_nyquist (N : nat) (sample_rate : Z) (k : nat) :
  (0 < sample_rate)%Z -> (k < N / 2)%nat ->
  0 <= bin_freq N sample_rate k
  /\ bin_freq N sample_rate k
     <= IZR sample_rate / 2 - IZR sample_rate / (2 * INR N).
Proof.
  intros Hsr Hk. unfold bin_freq.
  assert (HN : (2 * k + 1 <= N)%nat).
  { pose proof (Nat.div_mod_eq N 2). lia. }
  assert (HNpos : 0 < INR N) by (apply lt_0_INR; lia).
  assert (Hs : 0 < IZR sample_rate) by (now apply IZR_lt).
  assert (Hk0 : 0 <= INR k) by apply pos_INR.
  apply le_INR in HN. rewrite plus_INR, mult_INR in HN. simpl in HN.
  split.
  - apply Rmult_le_pos; [nra|]. apply Rlt_le, Rinv_0_lt_compat; lra.
  - apply Rmult_le_reg_r with (2 * INR N); [lra|].
    replace (INR k * IZR sample_rate / INR N * (2 * INR N))
      with (2 * INR k * IZR sample_rate) by (field; lra).
    replace ((IZR sample_rate / 2 - IZR sample_rate / (2 * INR N))
             * (2 * INR N))
      with (IZR sample_rate * (INR N - 1)) by (field; lra).
    nra.
Qed.

End Sums.

Section BandSums.

Variables (x : list R) (sample_rate : Z).

(** Every bin is counted in at most one band, and in one exactly when its
    frequency is at most 3000 Hz. *)
Lemma contributions_sum (k : nat) :
  contribution x sample_rate low_b k
  + contribution x sample_rate mid_b k
  + contribution x sample_rate high_b k
  = if Rle_dec (bin_freq (length x) sample_rate k) 3000
    then dft_magnitude x k else 0.
Proof.
  unfold contribution, low_b, mid_b, high_b. cases_cmp.
Qed.

Lemma band_energies_sum :
  band_energy x sample_rate low_b
  + band_energy x sample_rate mid_b
  + band_energy x sample_rate high_b
  = bigsum (length x / 2)
      (fun k => if Rle_dec (bin_freq (length x) sample_rate k) 3000
                then dft_magnitude x k else 0).
Proof.
  unfold band_energy. rewrite <- !bigsum_plus.
  apply bigsum_ext. intros k _. apply contributions_sum.
Qed.

End BandSums.

(** X18: for non-empty samples and a positive sample rate, the spectral
    centroid is a frequency between 0 and half the sample rate (the
    latter excluded). *)
Theorem spectral_centroid_range (audio_data : list R) (sample_rate : Z) :
  audio_data <> [] -> (0 < sample_rate)%Z ->
  exists c : R,
    _calculate_spectral_centroid audio_data sample_rate = Ok c
    /\ 0 <= c < IZR sample_rate / 2.
Proof.
  intros Hx Hsr.
  rewrite spectral_centroid_nonempty by (try exact Hx; lia).
  eexists. split; [reflexivity|].
  unfold weighted_mean_frequency.
  set (N := length audio_data).
  set (total := bigsum (N / 2) (dft_magnitude audio_data)).
  set (W := bigsum (N / 2)
              (fun k => bin_freq N sample_rate k
                        * dft_magnitude audio_data k)).
  assert (Hs : 0 < IZR sample_rate) by (now apply IZR_lt).
  assert (HN : 0 < INR N).
  { apply lt_0_INR. unfold N. destruct audio_data;
      [contradiction | simpl; lia]. }
  assert (Hgap : 0 < IZR sample_rate / (2 * INR N)).
  { apply Rdiv_lt_0_compat; lra. }
  destruct (Req_dec_T total 0) as [H0|H0]; [lra|].
  assert (Ht : 0 < total).
  { assert (0 <= total)
      by (apply bigsum_nonneg; intros; apply dft_magnitude_nonneg).
    lra. }
  set (F := IZR sample_rate / 2 - IZR sample_rate / (2 * INR N)).
  assert (HW0 : 0 <= W).
  { apply bigsum_nonneg. intros k Hk.
    destruct (bin_freq_below_nyquist N sample_rate k Hsr Hk) as [Hf _].
    apply Rmult_le_pos; [exact Hf | apply dft_magnitude_nonneg]. }
  assert (HWF : W <= F * total).
  { unfold total. rewrite <- bigsum_scal. apply bigsum_le. intros k Hk.
    destruct (bin_freq_below_nyquist N sample_rate k Hsr Hk) as [_ Hf].
    apply Rmult_le_compat_r; [apply dft_magnitude_nonneg | exact Hf]. }
  split.
  - apply Rmult_le_pos; [exact HW0|]. apply Rlt_le, Rinv_0_lt_compat, Ht.
  - apply Rle_lt_trans with F; [|unfold F; lra].
    apply Rmult_le_reg_r with total; [exact Ht|].
    unfold Rdiv at 1. rewrite Rmult_assoc, Rinv_l by lra. lra.
Qed.

Lemma spectral_centroid_range_witness :
  exists c : R,
    _calculate_spectral_centroid impulse 16000 = Ok c
    /\ 0 <= c < IZR 16000 / 2.
Proof.
  apply spectral_centroid_range; [unfold impulse; discriminate | lia].
Defined.

(** X20: when the sample rate is at most 6000 Hz, no retained bin lies
    above 3000 Hz, so the three band energies add up to the whole
    retained magnitude spectrum (the denominator of the centroid). *)
Theorem band_energies_cover_low_rates
    (audio_data : list R) (sample_rate : Z) :
  audio_data <> [] -> (0 < sample_rate <= 6000)%Z ->
  exists low mid high : R,
    _calculate_frequency_bands_energy audio_data sample_rate
    = Ok (low, mid, high)
    /\ low + mid + high
       = bigsum (length audio_data / 2) (dft_magnitude audio_data).
Proof.
  intros Hx [Hsr Hmax].
  rewrite (bands_energy_nonempty audio_data sample_rate Hx) by lia.
  do 3 eexists. split; [reflexivity|].
  rewrite band_energies_sum. apply bigsum_ext. intros k Hk.
  destruct (bin_freq_below_nyquist (length audio_data) sample_rate k Hsr Hk)
    as [_ Hf].
  assert (HN : 0 < INR (length audio_data)).
  { apply lt_0_INR. destruct audio_data; [contradiction | simpl; lia]. }
  assert (Hs : 0 < IZR sample_rate) by (now apply IZR_lt).
  assert (Hs6 : IZR sample_rate <= 6000) by (now apply IZR_le in Hmax).
  assert (Hgap : 0 < IZR sample_rate / (2 * INR (length audio_data))).
  { apply Rdiv_lt_0_compat; lra. }
  destruct (Rle_dec (bin_freq (length audio_data) sample_rate k) 3000);
    [reflexivity | lra].
Qed.

Lemma band_energies_cover_low_rates_witness :
  exists low mid high : R,
    _calculate_frequency_bands_energy impulse 4000 = Ok (low, mid, high)
    /\ low + mid + high = bigsum (length impulse / 2) (dft_magnitude impulse).
Proof.
  apply band_energies_cover_low_rates; [unfold impulse; discriminate | lia].
Defined.

Section ZeroCrossingLaws.

Lemma sign_changes_cons (a b : R) (x : list R) :
  sign_changes (a :: b :: x)
  = ((if Z.eq_dec (sgn a) (sgn b) then 0 else 1) + sign_changes (b :: x))%nat.
Proof. reflexivity. Qed.

Lemma sign_changes_zero (a : R) (x : list R) :
  sign_changes (a :: x) = 0%nat <-> Forall (fun b => sgn b = sgn a) x.
Proof.
  revert a; induction x as [|b x IH]; intros a.
  - split; [constructor | reflexivity].
  - rewrite sign_changes_cons. split.
    + intros H. destruct (Z.eq_dec (sgn a) (sgn b)) as [E|E]; [|lia].
      constructor; [now symmetry|].
      rewrite E. apply IH. lia.
    + intros H. inversion H as [|? ? Hb Hx]; subst.
      destruct (Z.eq_dec (sgn a) (sgn b)) as [E|E]; [|congruence].
      rewrite E in Hx. apply IH in Hx. lia.
Qed.

Lemma sgn_mult (c a : R) : sgn (c * a) = (sgn c * sgn a)%Z.
Proof.
  destruct (Rtotal_order c 0) as [Hc|[Hc|Hc]];
    destruct (Rtotal_order a 0) as [Ha|[Ha|Ha]];
    try (subst; rewrite ?Rmult_0_l, ?Rmult_0_r, sgn_zero; lia).
  - rewrite (sgn_neg c), (sgn_neg a), (sgn_pos (c * a)) by nra. reflexivity.
  - rewrite (sgn_neg c), (sgn_pos a), (sgn_neg (c * a)) by nra. reflexivity.
  - rewrite (sgn_pos c), (sgn_neg a), (sgn_neg (c * a)) by nra. reflexivity.
  - rewrite (sgn_pos c), (sgn_pos a), (sgn_pos (c * a)) by nra. reflexivity.
Qed.

Lemma sgn_nonzero (c : R) : c <> 0 -> sgn c = 1%Z \/ sgn c = (-1)%Z.
Proof.
  intros Hc. destruct (Rtotal_order c 0) as [H|[H|H]]; [right| |left].
  - now apply sgn_neg.
  - contradiction.
  - now apply sgn_pos.
Qed.

Lemma sign_changes_scale (c : R) (x : list R) :
  c <> 0 -> sign_changes (scale c x) = sign_changes x.
Proof.
  intros Hc. induction x as [|a x IH]; [reflexivity|].
  destruct x as [|b x]; [reflexivity|].
  change (scale c (a :: b :: x)) with (c * a :: scale c (b :: x)).
  change (scale c (b :: x)) with (c * b :: scale c x) in *.
  rewrite !sign_changes_cons, IH. f_equal.
  rewrite !sgn_mult.
  destruct (sgn_nonzero c Hc) as [-> | ->];
    destruct (Z.eq_dec (sgn a) (sgn b)),
             (Z.eq_dec _ _); try reflexivity; lia.
Qed.

Lemma zero_crossing_rate_value (x : list R) :
  x <> [] ->
  _calculate_zero_crossing_rate x
  = Some (INR (sign_changes x) / INR (length x)).
Proof.
  intros Hx. unfold _calculate_zero_crossing_rate.
  rewrite zero_crossings_count.
  destruct x; [contradiction | reflexivity].
Qed.

End ZeroCrossingLaws.

(** X21: the zero-crossing rate of [n >= 1] samples lies between 0 and
    [(n - 1) / n], so it is always below 1; for an empty array the
    function returns nan. *)
Theorem zero_crossing_rate_range (audio_data : list R) :
  _calculate_zero_crossing_rate [] = None
  /\ (audio_data <> [] ->
      exists z : R,
        _calculate_zero_crossing_rate audio_data = Some z
        /\ 0 <= z <= (INR (length audio_data) - 1) / INR (length audio_data)
        /\ z < 1).
Proof.
  split; [reflexivity|]. intros Hx.
  rewrite zero_crossing_rate_value by exact Hx.
  eexists. split; [reflexivity|].
  pose proof (sign_changes_bound audio_data) as Hb.
  assert (Hn : (0 < length audio_data)%nat)
    by (destruct audio_data; [contradiction | simpl; lia]).
  assert (HN : 0 < INR (length audio_data)) by (now apply lt_0_INR).
  assert (Hk : INR (sign_changes audio_data) <= INR (length audio_data) - 1).
  { rewrite <- (minus_INR _ 1) by lia. apply le_INR, Hb. }
  assert (H0 : 0 <= INR (sign_changes audio_data)) by apply pos_INR.
  assert (Hinv : 0 < / INR (length audio_data))
    by (now apply Rinv_0_lt_compat).
  unfold Rdiv. repeat split.
  - nra.
  - apply Rmult_le_compat_r; lra.
  - apply Rmult_lt_reg_r with (INR (length audio_data)); [exact HN|].
    rewrite Rmult_assoc, Rinv_l by lra. lra.
Qed.

(** X22: the zero-crossing rate of non-empty samples is 0 exactly when
    all samples have the same three-valued sign. *)
Theorem zero_crossing_rate_zero_iff (audio_data : list R) :
  audio_data <> [] ->
  (_calculate_zero_crossing_rate audio_data = Some 0
   <-> exists sigma : Z, Forall (fun a => sgn a = sigma) audio_data).
Proof.
  intros Hx. rewrite zero_crossing_rate_value by exact Hx.
  destruct audio_data as [|a x]; [contradiction|].
  assert (HN : 0 < INR (length (a :: x))) by (apply lt_0_INR; simpl; lia).
  assert (Hq : INR (sign_changes (a :: x)) / INR (length (a :: x)) = 0
               <-> sign_changes (a :: x) = 0%nat).
  { split; intros H.
    - apply INR_eq. simpl INR at 2.
      apply Rmult_eq_reg_r with (/ INR (length (a :: x)));
        [|apply Rinv_neq_0_compat; lra].
      rewrite Rmult_0_l. exact H.
    - rewrite H. simpl INR at 1. unfold Rdiv. apply Rmult_0_l. }
  split.
  - intros H. injection H as H. apply Hq, sign_changes_zero in H.
    exists (sgn a). constructor; [reflexivity | exact H].
  - intros [sigma H]. f_equal. apply Hq, sign_changes_zero.
    inversion H as [|? ? Ha Hrest]; subst.
    exact Hrest.
Qed.

Lemma zero_crossing_rate_zero_iff_witness :
  _calculate_zero_crossing_rate [1; 2; 3] = Some 0
  <-> exists sigma : Z, Forall (fun a => sgn a = sigma) [1; 2; 3].
Proof.
  apply zero_crossing_rate_zero_iff. discriminate.
Defined.

(** X23: the zero-crossing rate does not change when every sample is
    multiplied by the same non-zero factor, positive or negative. *)
Theorem zero_crossing_rate_scale (c : R) (audio_data : list R) :
  c <> 0 ->
  _calculate_zero_crossing_rate (scale c audio_data)
  = _calculate_zero_crossing_rate audio_data.
Proof.
  intros Hc. destruct audio_data as [|a x]; [reflexivity|].
  rewrite !zero_crossing_rate_value by discriminate.
  rewrite sign_changes_scale by exact Hc.
  now rewrite length_scale.
Qed.

Lemma zero_crossing_rate_scale_witness :
  _calculate_zero_crossing_rate (scale (-2) [1; 0; -1])
  = _calculate_zero_crossing_rate [1; 0; -1].
Proof.
  apply zero_crossing_rate_scale. lra.
Defined.

Section Statistics.

Lemma mean_nonempty (a : list R) : a <> [] -> np.mean a = Some (average a).
Proof. destruct a; [contradiction | reflexivity]. Qed.

Lemma std_nonempty (a : list R) :
  a <> [] ->
  np.std a
  = Some (sqrt (average
                  (map (fun v => (v - average a) * (v - average a)) a))).
Proof.
  intros Ha. unfold np.std. rewrite (mean_nonempty a Ha).
  rewrite mean_nonempty; [reflexivity|].
  destruct a; [contradiction | discriminate].
Qed.

End Statistics.

Section Extraction.

Lemma extract_nonempty (x : list R) (sample_rate : Z) :
  x <> [] -> sample_rate <> 0%Z ->
  extract_voice_features x sample_rate
  = Ok (map Some (feature_values x sample_rate)).
Proof.
  intros Hx Hsr. unfold extract_voice_features.
  rewrite (spectral_centroid_nonempty x sample_rate Hx Hsr).
  rewrite (bands_energy_nonempty x sample_rate Hx Hsr).
  rewrite (zero_crossing_rate_value x Hx), (std_nonempty x Hx).
  rewrite mean_nonempty
    by (destruct x; [contradiction | discriminate]).
  reflexivity.
Qed.

Lemma spectral_centroid_empty (sample_rate : Z) :
  _calculate_spectral_centroid [] sample_rate = Raise ValueError.
Proof. reflexivity. Qed.

Lemma spectral_centroid_zero_rate (x : list R) :
  x <> [] -> _calculate_spectral_centroid x 0 = Raise ZeroDivisionError.
Proof.
  intros Hx. unfold _calculate_spectral_centroid.
  now rewrite (fft_nonempty x Hx).
Qed.

Lemma bands_energy_empty (sample_rate : Z) :
  _calculate_frequency_bands_energy [] sample_rate = Raise ValueError.
Proof. reflexivity. Qed.

Lemma bands_energy_zero_rate (x : list R) :
  x <> [] ->
  _calculate_frequency_bands_energy x 0 = Raise ZeroDivisionError.
Proof.
  intros Hx. unfold _calculate_frequency_bands_energy.
  now rewrite (fft_nonempty x Hx).
Qed.

End Extraction.

(** X26: [extract_voice_features] raises [ValueError] exactly on empty
    samples (whatever the sample rate, also 0), raises
    [ZeroDivisionError] exactly on non-empty samples with sample rate 0,
    and returns features in every other case. *)
Theorem extract_voice_features_errors
    (audio_data : list R) (sample_rate : Z) :
  (extract_voice_features audio_data sample_rate = Raise ValueError
   <-> audio_data = [])
  /\ (extract_voice_features audio_data sample_rate = Raise ZeroDivisionError
      <-> audio_data <> [] /\ sample_rate = 0%Z)
  /\ ((exists f, extract_voice_features audio_data sample_rate = Ok f)
      <-> audio_data <> [] /\ sample_rate <> 0%Z).
Proof.
  destruct audio_data as [|a x].
  - assert (E : extract_voice_features [] sample_rate = Raise ValueError)
      by reflexivity.
    rewrite E. split; [|split]; split; intros H;
      try reflexivity; try discriminate H.
    + destruct H as [H _]. contradiction.
    + destruct H as [f Hf]. discriminate Hf.
    + destruct H as [H _]. contradiction.
  - destruct (Z.eq_dec sample_rate 0%Z) as [->|Hsr].
    + assert (E : extract_voice_features (a :: x) 0
                  = Raise ZeroDivisionError).
      { unfold extract_voice_features.
        now rewrite spectral_centroid_zero_rate by discriminate. }
      rewrite E. split; [|split]; split; intros H;
        try reflexivity; try discriminate H.
      * split; [discriminate | reflexivity].
      * destruct H as [f Hf]. discriminate Hf.
      * destruct H as [_ H]. contradiction.
    + rewrite extract_nonempty by (try discriminate; exact Hsr).
      split; [|split]; split; intros H;
        try reflexivity; try discriminate H.
      * destruct H as [_ H]. contradiction.
      * split; [discriminate | exact Hsr].
      * eexists. reflexivity.
Qed.

(** X27: the two spectral functions fail alike: each raises [ValueError]
    exactly on empty samples (whatever the sample rate) and
    [ZeroDivisionError] exactly on non-empty samples with sample rate 0;
    in particular a negative sample rate is accepted. *)
Theorem spectral_functions_errors (audio_data : list R) (sample_rate : Z) :
  (_calculate_spectral_centroid audio_data sample_rate = Raise ValueError
   <-> audio_data = [])
  /\ (_calculate_frequency_bands_energy audio_data sample_rate
      = Raise ValueError <-> audio_data = [])
  /\ (_calculate_spectral_centroid audio_data sample_rate
      = Raise ZeroDivisionError <-> audio_data <> [] /\ sample_rate = 0%Z)
  /\ (_calculate_frequency_bands_energy audio_data sample_rate
      = Raise ZeroDivisionError <-> audio_data <> [] /\ sample_rate = 0%Z).
Proof.
  destruct audio_data as [|a x].
  - rewrite spectral_centroid_empty, bands_energy_empty.
    split; [|split; [|split]]; split; intros H;
      try reflexivity; try discriminate H;
      destruct H as [H _]; contradiction.
  - destruct (Z.eq_dec sample_rate 0%Z) as [->|Hsr].
    + rewrite spectral_centroid_zero_rate, bands_energy_zero_rate
        by discriminate.
      split; [|split; [|split]]; split; intros H;
        try reflexivity; try discriminate H;
        (split; [discriminate | reflexivity]).
    + rewrite spectral_centroid_nonempty, bands_energy_nonempty
        by (try discriminate; exact Hsr).
      split; [|split; [|split]]; split; intros H; try discriminate H;
        destruct H as [_ H]; contradiction.
Qed.

Section Silence.

Lemma sum_silence (n : nat) : np.sum (silence n) = 0.
Proof. unfold silence. induction n as [|n IH]; simpl; [|rewrite IH]; lra. Qed.

Lemma average_silence (n : nat) : average (silence n) = 0.
Proof. unfold average. rewrite sum_silence. unfold Rdiv. ring. Qed.

Lemma dft_magnitude_silence (n k : nat) : dft_magnitude (silence n) k = 0.
Proof.
  unfold dft_magnitude, silence.
  rewrite !bigsum_zero by (intros m _; rewrite nth_repeat; ring).
  rewrite Rmult_0_l, Rplus_0_l. apply sqrt_0.
Qed.

Lemma band_energy_silence (n : nat) (sample_rate : Z) (inband : R -> bool) :
  band_energy (silence n) sample_rate inband = 0.
Proof.
  unfold band_energy. apply bigsum_zero. intros k _.
  unfold contribution. rewrite dft_magnitude_silence.
  now destruct (inband _).
Qed.

Lemma sign_changes_silence (n : nat) : sign_changes (silence n) = 0%nat.
Proof.
  destruct n as [|n]; [reflexivity|].
  change (silence (S n)) with (0 :: silence n).
  apply sign_changes_zero. unfold silence.
  apply Forall_forall. intros b Hb.
  apply list_elem_of_In, repeat_spec in Hb. now subst.
Qed.

Lemma feature_values_silence (n : nat) (sample_rate : Z) :
  feature_values (silence n) sample_rate = zero_vector.
Proof.
  unfold feature_values, zero_vector. simpl repeat.
  rewrite !band_energy_silence, sign_changes_silence, average_silence.
  assert (Habs : map Rabs (silence n) = silence n).
  { unfold silence. rewrite map_repeat. now rewrite Rabs_R0. }
  assert (Hdev : map (fun v => (v - 0) * (v - 0)) (silence n) = silence n).
  { unfold silence. rewrite map_repeat. f_equal. ring. }
  rewrite Habs, Hdev, average_silence, sqrt_0.
  assert (Hw : weighted_mean_frequency (silence n) sample_rate = 0).
  { unfold weighted_mean_frequency.
    rewrite (bigsum_zero _ (dft_magnitude (silence n)))
      by (intros k _; apply dft_magnitude_silence).
    destruct (Req_dec_T 0 0); [reflexivity | contradiction]. }
  rewrite Hw. simpl INR. unfold Rdiv. rewrite Rmult_0_l. reflexivity.
Qed.

Lemma silence_nonempty (n : nat) : (0 < n)%nat -> silence n <> [].
Proof. destruct n; [lia | discriminate]. Qed.

End Silence.

(** X28: silence of any positive length, at any non-zero sample rate,
    yields the all-zero feature vector; registering a user with it and
    verifying the same vector is rejected, with score 0.0, for every
    positive threshold. *)
Theorem silence_is_never_verified
    (n : nat) (sample_rate : Z) (self : VoiceVerificationService)
    (now u : Z) (t : R) :
  (0 < n)%nat -> sample_rate <> 0%Z -> 0 < t ->
  extract_voice_features (silence n) sample_rate
  = Ok (map Some zero_vector)
  /\ fst (verify_user_voiceprint u zero_vector t
            (snd (register_user_voiceprint now u zero_vector self)))
     = Ok (false, 0).
Proof.
  intros Hn Hsr Ht. split.
  - rewrite extract_nonempty by (try apply silence_nonempty; assumption).
    now rewrite feature_values_silence.
  - rewrite (register_then_verify self now u zero_vector t 0).
    + do 2 f_equal. now apply ge_bool_false.
    + apply zero_norm_left; [reflexivity | apply zero_vector_norm].
Qed.

Lemma silence_is_never_verified_witness :
  extract_voice_features (silence 8) 16000 = Ok (map Some zero_vector)
  /\ fst (verify_user_voiceprint 1 zero_vector 0.8
            (snd (register_user_voiceprint 0 1 zero_vector init)))
     = Ok (false, 0).
Proof.
  apply silence_is_never_verified; [lia | lia | lra].
Defined.


(** * Registration followed by verification *)



(** * The spectral functions on computed arrays *)

Section ComputedSpectrum.

Lemma firstn_nth {A : Type} (d : A) (l : list A) :
  forall m : nat,
    (m <= length l)%nat ->
    firstn m l = map (fun k => nth k l d) (seq 0 m).
Proof.
  induction l as [|x l IH]; intros m Hm.
  - simpl in Hm. assert (m = 0%nat) as -> by lia. reflexivity.
  - destruct m as [|m]; [reflexivity|].
    simpl in Hm. simpl. f_equal.
    rewrite IH by lia. rewrite <- seq_shift, map_map. reflexivity.
Qed.

Lemma cabs_origin : np.cabs (0, 0) = 0.
Proof.
  unfold np.cabs. simpl.
  replace (0 * 0 + 0 * 0) with 0 by ring. apply sqrt_0.
Qed.

Lemma positive_magnitude_computed (X : list np.complex) :
  firstn (length (map np.cabs X) / 2) (map np.cabs X)
  = map (magnitude_at X) (seq 0 (length X / 2)).
Proof.
  rewrite length_map.
  rewrite (firstn_nth 0)
    by (rewrite length_map; apply Nat.Div0.div_le_upper_bound; lia).
  apply map_ext. intros k. unfold magnitude_at.
  rewrite <- cabs_origin at 1. apply map_nth.
Qed.

Lemma positive_freqs_computed (F : list R) :
  firstn (length F / 2) F = map (frequency_at F) (seq 0 (length F / 2)).
Proof.
  apply firstn_nth. apply Nat.Div0.div_le_upper_bound. lia.
Qed.

Lemma masked_sum_computed (X : list np.complex) (F : list R) (n : nat)
    (p : nat -> bool) (inband : R -> bool) :
  (forall k, p k = inband (frequency_at F k)) ->
  np.sum (np.mask (map (magnitude_at X) (seq 0 n)) (map p (seq 0 n)))
  = band_sum X F n inband.
Proof.
  intros Hp. rewrite sum_mask_tabulate, sum_tabulate.
  unfold band_sum. apply bigsum_ext. intros k _. now rewrite Hp.
Qed.

Lemma np_fft_returns : returns_spectrum np.fft.
Proof.
  intros a Ha. exists (map (np.dft_bin a) (seq 0 (length a))).
  split; [now apply fft_nonempty|].
  now rewrite length_map, length_seq.
Qed.

Lemma np_fftfreq_returns : returns_frequencies np.fftfreq.
Proof. intros n d Hn. now apply length_fftfreq. Qed.

Lemma magnitude_at_nonneg (X : list np.complex) (k : nat) :
  0 <= magnitude_at X k.
Proof. unfold magnitude_at, np.cabs. apply sqrt_pos. Qed.

Lemma band_sum_nonneg (X : list np.complex) (F : list R) (n : nat)
    (inband : R -> bool) :
  0 <= band_sum X F n inband.
Proof.
  unfold band_sum. apply bigsum_nonneg. intros k _.
  destruct (inband _); [apply magnitude_at_nonneg | lra].
Qed.

Lemma band_sums_add (X : list np.complex) (F : list R) (n : nat) :
  band_sum X F n low_b + band_sum X F n mid_b + band_sum X F n high_b
  = band_sum X F n upto_high_b.
Proof.
  unfold band_sum. rewrite <- !bigsum_plus.
  apply bigsum_ext. intros k _.
  unfold low_b, mid_b, high_b, upto_high_b. cases_cmp.
Qed.

Variable fft : list R -> result (list np.complex).
Variable fftfreq : nat -> R -> list R.

(** The instances at the exact transform are the functions of the
    signal analyzer. *)
Lemma parametric_instances (x : list R) (sample_rate : Z) :
  Parametric._calculate_spectral_centroid np.fft np.fftfreq x sample_rate
  = _calculate_spectral_centroid x sample_rate
  /\ Parametric._calculate_frequency_bands_energy np.fft np.fftfreq
       x sample_rate
     = _calculate_frequency_bands_energy x sample_rate.
Proof. split; reflexivity. Qed.

Lemma bands_energy_computed (x : list R) (sample_rate : Z)
    (X : list np.complex) :
  returns_frequencies fftfreq ->
  fft x = Ok X -> length X = length x -> x <> [] -> sample_rate <> 0%Z ->
  Parametric._calculate_frequency_bands_energy fft fftfreq x sample_rate
  = let F := fftfreq (length x) (1 / IZR sample_rate) in
    let n := (length x / 2)%nat in
    Ok (band_sum X F n low_b, band_sum X F n mid_b, band_sum X F n high_b).
Proof.
  intros Hfreq HX Hlen Hx Hsr.
  unfold Parametric._calculate_frequency_bands_energy.
  rewrite HX. apply Z.eqb_neq in Hsr as ->. cbv zeta.
  assert (Hn : (0 < length x)%nat)
    by (destruct x; [contradiction | simpl; lia]).
  set (F := fftfreq (length x) (1 / IZR sample_rate)).
  assert (HF : length F = length x) by (now apply Hfreq).
  rewrite positive_magnitude_computed, positive_freqs_computed.
  rewrite HF, Hlen.
  rewrite !le_tabulate, !gt_tabulate, !band_tabulate.
  f_equal. f_equal; [f_equal|].
  - apply masked_sum_computed. reflexivity.
  - apply masked_sum_computed. intros k. apply mid_mask.
  - apply masked_sum_computed. intros k. apply high_mask.
Qed.


End ComputedSpectrum.





(** X19: for non-empty samples and a non-zero sample rate, the three
    band energies are non-negative and their sum is the sum of the
    retained (first-half) magnitudes at the bins whose computed frequency
    is at most 3000 Hz: each such bin is counted in exactly one band.
    Spectrum and frequencies are the arrays the library returns. *)
Theorem band_energies_partition_computed
    (fft : list R -> result (list np.complex))
    (fftfreq : nat -> R -> list R)
    (audio_data : list R) (sample_rate : Z) :
  returns_spectrum fft -> returns_frequencies fftfreq ->
  audio_data <> [] -> sample_rate <> 0%Z ->
  exists (X : list np.complex) (low mid high : R),
    fft audio_data = Ok X
    /\ Parametric._calculate_frequency_bands_energy fft fftfreq
         audio_data sample_rate = Ok (low, mid, high)
    /\ 0 <= low /\ 0 <= mid /\ 0 <= high
    /\ low + mid + high
       = band_sum X (fftfreq (length audio_data) (1 / IZR sample_rate))
           (length audio_data / 2) upto_high_b.
Proof.
  intros Hfft Hfreq Hx Hsr.
  destruct (Hfft audio_data Hx) as (X & HX & Hlen).
  exists X.
  rewrite (bands_energy_computed fft fftfreq audio_data sample_rate X)
    by assumption.
  cbv zeta. do 3 eexists. split; [exact HX|]. split; [reflexivity|].
  repeat split; try apply band_sum_nonneg.
  apply band_sums_add.
Qed.

Lemma band_energies_partition_computed_witness :
  exists (X : list np.complex) (low mid high : R),
    np.fft impulse = Ok X
    /\ Parametric._calculate_frequency_bands_energy np.fft np.fftfreq
         impulse 16000 = Ok (low, mid, high)
    /\ 0 <= low /\ 0 <= mid /\ 0 <= high
    /\ low + mid + high
       = band_sum X (np.fftfreq (length impulse) (1 / IZR 16000))
           (length impulse / 2) upto_high_b.
Proof.
  apply band_energies_partition_computed.
  - apply np_fft_returns.
  - apply np_fftfreq_returns.
  - unfold impulse. discriminate.
  - lia.
Defined.

(** ** The similarity engine on binary64 numbers

    The laws below are about [Binary64._calculate_similarity], where every
    operation rounds as IEEE 754 prescribes.  The first part is about the
    sign of a rounded result, for any precision. *)

Module Binary64Laws.
Import Floats.
Import Binary64.
Local Open Scope float_scope.

Section Rounding.
Variables prec emax : Z.

Lemma shr_1_nonneg mrs : (0 <= shr_m mrs)%Z -> (0 <= shr_m (shr_1 mrs))%Z.
Proof.
  destruct mrs as [m r s]; simpl.
  destruct m as [|p|p]; [simpl; lia | | simpl; lia].
  intros _. destruct p; simpl; lia.
Qed.

Lemma iter_shr_1_nonneg p mrs :
  (0 <= shr_m mrs)%Z -> (0 <= shr_m (iter_pos shr_1 p mrs))%Z.
Proof.
  revert mrs; induction p as [p IH|p IH|]; intros mrs H; simpl.
  - apply IH, IH, shr_1_nonneg, H.
  - apply IH, IH, H.
  - apply shr_1_nonneg, H.
Qed.

Lemma shr_nonneg mrs e n :
  (0 <= shr_m mrs)%Z -> (0 <= shr_m (fst (shr mrs e n)))%Z.
Proof.
  intros H. unfold shr. destruct n; simpl; try exact H.
  apply iter_shr_1_nonneg, H.
Qed.

Lemma shr_m_of_loc m l : shr_m (shr_record_of_loc m l) = m.
Proof. destruct l as [|[]]; reflexivity. Qed.

Lemma shr_fexp_nonneg m e l :
  (0 <= m)%Z -> (0 <= shr_m (fst (shr_fexp prec emax m e l)))%Z.
Proof.
  intros H. unfold shr_fexp. apply shr_nonneg. now rewrite shr_m_of_loc.
Qed.

Lemma round_nearest_even_nonneg m l :
  (0 <= m)%Z -> (0 <= round_nearest_even m l)%Z.
Proof.
  intros H. unfold round_nearest_even.
  destruct l as [|[]]; try lia. destruct (Z.even m); lia.
Qed.

Lemma binary_round_aux_sign s m e l :
  (0 <= m)%Z -> has_sign s (binary_round_aux prec emax s m e l) = true.
Proof.
  intros H. unfold binary_round_aux.
  pose proof (shr_fexp_nonneg m e l H) as H1.
  destruct (shr_fexp prec emax m e l) as [mrs' e']. simpl in H1.
  pose proof (shr_fexp_nonneg _ e' loc_Exact
                (round_nearest_even_nonneg _ (loc_of_shr_record mrs') H1)) as H2.
  destruct (shr_fexp prec emax _ e' loc_Exact) as [mrs'' e'']. simpl in H2.
  destruct (shr_m mrs'') as [|p|p]; simpl.
  - apply eqb_reflx.
  - destruct (Z.leb e'' (emax - prec)); simpl; apply eqb_reflx.
  - lia.
Qed.

Lemma binary_round_aux_opp s m e l :
  binary_round_aux prec emax (negb s) m e l
  = SFopp (binary_round_aux prec emax s m e l).
Proof.
  unfold binary_round_aux.
  destruct (shr_fexp prec emax m e l) as [mrs' e'].
  destruct (shr_fexp prec emax _ e' loc_Exact) as [mrs'' e''].
  destruct (shr_m mrs''); simpl; try reflexivity.
  destruct (Z.leb e'' (emax - prec)); reflexivity.
Qed.

Lemma binary_round_sign s m e :
  has_sign s (binary_round prec emax s m e) = true.
Proof.
  unfold binary_round.
  destruct (shl_align m e _) as [mz ez].
  apply binary_round_aux_sign. lia.
Qed.

Lemma binary_round_opp s m e :
  binary_round prec emax (negb s) m e = SFopp (binary_round prec emax s m e).
Proof.
  unfold binary_round.
  destruct (shl_align m e _) as [mz ez].
  apply binary_round_aux_opp.
Qed.

Lemma xorb_negb_right a b : xorb a (negb b) = negb (xorb a b).
Proof. destruct a, b; reflexivity. Qed.

Lemma xorb_negb_negb a b : xorb (negb a) (negb b) = xorb a b.
Proof. destruct a, b; reflexivity. Qed.

Lemma SFmul_opp_r x y :
  SFmul prec emax x (SFopp y) = SFopp (SFmul prec emax x y).
Proof.
  destruct x as [sx|sx| |sx mx ex], y as [sy|sy| |sy my ey]; simpl;
    try reflexivity; try (now rewrite xorb_negb_right).
  rewrite xorb_negb_right. apply binary_round_aux_opp.
Qed.

Lemma SFmul_opp_opp x y :
  SFmul prec emax (SFopp x) (SFopp y) = SFmul prec emax x y.
Proof.
  destruct x as [sx|sx| |sx mx ex], y as [sy|sy| |sy my ey]; simpl;
    try reflexivity; now rewrite xorb_negb_negb.
Qed.

Lemma SFmul_self_nonneg x : nonneg_or_nan (SFmul prec emax x x) = true.
Proof.
  destruct x as [sx|sx| |sx mx ex]; simpl;
    try reflexivity; try (now rewrite xorb_nilpotent).
  rewrite xorb_nilpotent.
  pose proof (binary_round_aux_sign false (Zpos (mx * mx)) (ex + ex)
                loc_Exact ltac:(lia)) as H.
  unfold nonneg_or_nan. now destruct (binary_round_aux _ _ _ _ _ _).
Qed.

(** addition of two numbers whose sign bit is clear *)
Lemma SFadd_nonneg x y :
  nonneg_or_nan x = true -> nonneg_or_nan y = true ->
  nonneg_or_nan (SFadd prec emax x y) = true
  /\ SFadd prec emax (SFopp x) (SFopp y) = SFopp (SFadd prec emax x y).
Proof.
  destruct x as [[]|[]| |[] mx ex], y as [[]|[]| |[] my ey]; simpl;
    try discriminate; intros _ _; try (split; reflexivity).
  pose proof (binary_round_sign false
                (fst (shl_align mx ex (Z.min ex ey))
                 + fst (shl_align my ey (Z.min ex ey))) (Z.min ex ey)) as H.
  split.
  - unfold nonneg_or_nan. now destruct (binary_round _ _ _ _ _).
  - apply (binary_round_opp false).
Qed.

(** division of a negative finite number by a number whose sign bit is
    clear *)
Lemma div_eucl_nonneg a b :
  (0 <= a)%Z -> (0 < b)%Z -> (0 <= fst (Z.div_eucl a b))%Z.
Proof.
  intros Ha Hb. change (fst (Z.div_eucl a b)) with (a / b)%Z.
  now apply Z.div_pos.
Qed.

Lemma SFdiv_neg_pos mx ex y :
  has_sign false y = true ->
  has_sign true (SFdiv prec emax (S754_finite true mx ex) y) = true.
Proof.
  destruct y as [[]|[]| |[] my ey]; simpl; try discriminate;
    intros _; try reflexivity.
  unfold SFdiv_core_binary.
  set (s := (ex - ey - _)%Z).
  set (m' := match s with Zpos _ => Z.shiftl (Zpos mx) s | Z0 => Zpos mx
                     | Zneg _ => 0%Z end).
  assert (Hm : (0 <= m')%Z).
  { unfold m'. destruct s; try lia. apply Z.shiftl_nonneg. lia. }
  pose proof (div_eucl_nonneg m' (Zpos my) Hm ltac:(lia)) as Hq.
  destruct (Z.div_eucl m' (Zpos my)) as [q r]. simpl in Hq.
  now apply binary_round_aux_sign.
Qed.

(** comparisons *)
Lemma SFltb_leb x y : SFltb x y = true -> SFleb x y = true.
Proof. unfold SFltb, SFleb. now destruct (SFcompare x y) as [[]|]. Qed.

Lemma neg_lt_pos_finite x m e :
  has_sign true x = true -> SFltb x (S754_finite false m e) = true.
Proof.
  destruct x as [[]|[]| |[] mx ex]; simpl; try discriminate;
    intros _; try reflexivity; now destruct s0.
Qed.

Lemma zero_not_lt_neg x s0 :
  has_sign true x = true -> SFltb (S754_zero s0) x = false.
Proof.
  destruct x as [[]|[]| |[] mx ex]; simpl; try discriminate;
    intros _; try reflexivity; now destruct s0.
Qed.

Lemma lt_zero_has_sign x s0 :
  SFltb x (S754_zero s0) = true -> has_sign true x = true.
Proof.
  destruct x as [s|s| |s mx ex]; simpl; try discriminate.
  - unfold SFltb; simpl. now destruct s.
  - unfold SFltb; simpl. now destruct s.
Qed.

Lemma SFsqrt_finite_sign m e :
  has_sign false (SFsqrt prec emax (S754_finite false m e)) = true.
Proof.
  simpl. unfold SFsqrt_core_binary.
  set (s := (e - 2 * _)%Z).
  set (m' := match s with Zpos _ => Z.shiftl (Zpos m) s | Z0 => Zpos m
                     | Zneg _ => 0%Z end).
  assert (Hm : (0 <= m')%Z).
  { unfold m'. destruct s; try lia. apply Z.shiftl_nonneg. lia. }
  pose proof (Z.sqrtrem_spec m' Hm) as Hs.
  destruct (Z.sqrtrem m') as [q r].
  assert (Hq : (0 <= q)%Z) by lia.
  now apply binary_round_aux_sign.
Qed.

Lemma SFmul_self_sign x :
  has_sign false x = true -> has_sign false (SFmul prec emax x x) = true.
Proof.
  destruct x as [[]|[]| |[] m e]; simpl; try discriminate;
    intros _; try reflexivity.
  apply binary_round_aux_sign. lia.
Qed.

End Rounding.

(** From here on: binary64. *)

Lemma SF_zero : Prim2SF 0 = S754_zero false.
Proof. reflexivity. Qed.

Lemma SF_one : Prim2SF 1 = S754_finite false 4503599627370496 (-52).
Proof. reflexivity. Qed.

Lemma mul_opp_r x y : x * (- y) = - (x * y).
Proof.
  apply Prim2SF_inj. rewrite opp_spec, !mul_spec, opp_spec.
  apply SFmul_opp_r.
Qed.

Lemma mul_opp_opp x y : (- x) * (- y) = x * y.
Proof.
  apply Prim2SF_inj. rewrite !mul_spec, !opp_spec. apply SFmul_opp_opp.
Qed.

Lemma accumulate_neg_neg acc v :
  accumulate acc (neg v) (neg v) = accumulate acc v v.
Proof.
  revert acc; induction v as [|x v IH]; intros acc; [reflexivity|].
  simpl. now rewrite mul_opp_opp, IH.
Qed.

Lemma mirror_step a' a x :
  mirror a' a -> mirror (a' + x * x) (a + x * (- x)).
Proof.
  intros [Hnn H]. unfold mirror.
  rewrite mul_opp_r, !add_spec, opp_spec, !mul_spec.
  pose proof (SFmul_self_nonneg prec emax (Prim2SF x)) as HP.
  fold SF64mul in *. set (P := SF64mul (Prim2SF x) (Prim2SF x)) in *.
  destruct (SFadd_nonneg prec emax _ _ Hnn HP) as [Hsum Hopp].
  fold SF64add in *.
  split; [exact Hsum|].
  destruct H as [H|[H1 H2]].
  - left. rewrite H. exact Hopp.
  - rewrite H1, H2. clear Hopp Hsum.
    destruct P as [[]|[]| |[] m e]; simpl in *; try discriminate;
      try (left; reflexivity); right; split; reflexivity.
Qed.

Lemma mirror_accumulate v : forall a' a,
  mirror a' a -> mirror (accumulate a' v v) (accumulate a v (neg v)).
Proof.
  induction v as [|x v IH]; intros a' a H; [exact H|].
  simpl. apply IH, mirror_step, H.
Qed.

Lemma mirror_inner v : mirror (inner v v) (inner v (neg v)).
Proof.
  apply mirror_accumulate. split; [reflexivity|]. right. split; reflexivity.
Qed.

Lemma length_neg v : length (neg v) = length v.
Proof. apply length_map. Qed.

Lemma ltb_leb x y : (x <? y) = true -> (x <=? y) = true.
Proof. rewrite ltb_spec, leb_spec. apply SFltb_leb. Qed.

(** The clamp lies between 0 and 1, whatever the quotient (nan included). *)
Lemma clamp_range q :
  (0 <=? py_max 0 (py_min 1 q)) = true
  /\ (py_max 0 (py_min 1 q) <=? 1) = true.
Proof.
  unfold py_max, py_min.
  destruct (q <? 1) eqn:H1.
  - destruct (0 <? q) eqn:H0.
    + split; now apply ltb_leb.
    + split; reflexivity.
  - split; reflexivity.
Qed.

Lemma clamp_negative q :
  has_sign true (Prim2SF q) = true -> py_max 0 (py_min 1 q) = 0.
Proof.
  intros H. unfold py_max, py_min.
  assert (H1 : (q <? 1) = true).
  { rewrite ltb_spec, SF_one. now apply neg_lt_pos_finite. }
  assert (H0 : (0 <? q) = false).
  { rewrite ltb_spec, SF_zero. now apply zero_not_lt_neg. }
  now rewrite H1, H0.
Qed.

Lemma clamp_below_zero q : (q <? 0) = true -> py_max 0 (py_min 1 q) = 0.
Proof.
  intros H. apply clamp_negative.
  rewrite ltb_spec, SF_zero in H. now apply lt_zero_has_sign in H.
Qed.

Lemma norm_of_negation v : linalg_norm (neg v) = linalg_norm v.
Proof. unfold linalg_norm, inner. now rewrite accumulate_neg_neg. Qed.

Lemma similarity_same_length a b :
  length a = length b ->
  _calculate_similarity a b
  = if (linalg_norm a =? 0) || (linalg_norm b =? 0) then Ok 0
    else Ok (py_max 0
               (py_min 1 (inner a b / (linalg_norm a * linalg_norm b)))).
Proof.
  intros H. unfold _calculate_similarity, dot.
  now rewrite H, Nat.eqb_refl.
Qed.

Lemma similarity_of_opposite v :
  is_finite (inner v v) = true -> _calculate_similarity v (neg v) = Ok 0.
Proof.
  intros Hfin.
  rewrite similarity_same_length by (symmetry; apply length_neg).
  rewrite norm_of_negation.
  destruct (linalg_norm v =? 0) eqn:Hz; [reflexivity|]. simpl.
  f_equal. apply clamp_negative.
  destruct (mirror_inner v) as [Hnn Hm].
  unfold is_finite in Hfin.
  rewrite div_spec, mul_spec. unfold linalg_norm in *.
  rewrite eqb_spec, sqrt_spec, SF_zero in Hz. rewrite !sqrt_spec.
  destruct (Prim2SF (inner v v)) as [[]|[]| |[] m e] eqn:Hd;
    simpl in Hnn, Hfin; try discriminate.
  (* when the squared norm is +0 the guard has fired; it is finite and
     positive here *)
  destruct Hm as [Hm|[Hm _]]; [|discriminate Hm].
  rewrite Hm. simpl SFopp.
  apply SFdiv_neg_pos, SFmul_self_sign, SFsqrt_finite_sign.
Qed.

Lemma similarity_in_range a b :
  length a = length b ->
  exists s, _calculate_similarity a b = Ok s
            /\ (0 <=? s) = true /\ (s <=? 1) = true.
Proof.
  intros Hlen. rewrite similarity_same_length by exact Hlen.
  destruct ((linalg_norm a =? 0) || (linalg_norm b =? 0)).
  - exists 0. repeat split; reflexivity.
  - eexists. split; [reflexivity|]. apply clamp_range.
Qed.





(** The opposite of a vector whose square overflows: the quotient is
    [-inf / inf], a nan, which both comparisons of the clamp let
    through to [min]'s first argument, 1.0. *)
Lemma opposite_of_huge_vector_scores_one :
  FeatureVector huge_vector
  /\ Forall (fun x => is_finite x = true) huge_vector
  /\ _calculate_similarity huge_vector (neg huge_vector) = Ok 1.
Proof.
  split; [reflexivity|]. split; [|vm_compute; reflexivity].
  unfold huge_vector.
  repeat match goal with |- Forall _ _ => constructor end;
    vm_compute; reflexivity.
Qed.


(** An everyday vector whose self-similarity rounds to the largest
    number below 1.0. *)
Example self_similarity_of_plain_vector :
  _calculate_similarity plain_vector plain_vector = Ok 0x1.ffffffffffffep-1
  /\ (0x1.ffffffffffffep-1 <? 1) = true.
Proof. split; vm_compute; reflexivity. Qed.

(** C4: on binary64 numbers, the similarity of two feature vectors is a
    number between 0.0 and 1.0 (so never a nan); it is 0.0 when the
    computed quotient [dot / (norm1 * norm2)] is negative; and the
    similarity of [v] and [-v] is 0.0 when the sum of the squares of
    [v] does not overflow. *)
Theorem similarity_clamped_binary64 (a b : list float) :
  FeatureVector a -> FeatureVector b ->
  exists s : float,
    _calculate_similarity a b = Ok s
    /\ (0 <=? s) = true /\ (s <=? 1) = true
    /\ ((inner a b / (linalg_norm a * linalg_norm b) <? 0) = true -> s = 0)
    /\ (is_finite (inner a a) = true ->
        _calculate_similarity a (neg a) = Ok 0).
Proof.
  intros Ha Hb.
  assert (Hlen : length a = length b) by (rewrite Ha, Hb; reflexivity).
  destruct (similarity_in_range a b Hlen) as (s & Hs & H0 & H1).
  exists s. repeat split; try assumption.
  - intros Hq. rewrite similarity_same_length in Hs by exact Hlen.
    destruct ((linalg_norm a =? 0) || (linalg_norm b =? 0));
      injection Hs as <-; [reflexivity|].
    now apply clamp_below_zero.
  - apply similarity_of_opposite.
Qed.

Lemma similarity_clamped_binary64_witness :
  exists s : float,
    _calculate_similarity plain_vector (neg plain_vector) = Ok s
    /\ (0 <=? s) = true /\ (s <=? 1) = true
    /\ ((inner plain_vector (neg plain_vector)
         / (linalg_norm plain_vector * linalg_norm (neg plain_vector)) <? 0)
        = true -> s = 0)
    /\ (is_finite (inner plain_vector plain_vector) = true ->
        _calculate_similarity plain_vector (neg plain_vector) = Ok 0).
Proof.
  apply (similarity_clamped_binary64 plain_vector (neg plain_vector));
    reflexivity.
Defined.



End Binary64Laws.
